(** * pyqnk: the instruction decoders of [tx_decode.py] and the
      discriminator helpers of [util.py], embedded and verified.

    Python values are modelled as follows.
    - [bytes] is [list byte]; indexing [data[i]] may raise [IndexError],
      slicing [data[a:b]] never raises and clips to the buffer.
    - [int] is [Z].
    - [str] is [string], read as the UTF-8 bytes of the text, so that
      [s.encode()] is the list of its bytes.
    - the dictionaries returned by the decoders are insertion-ordered
      association lists from keys to [pyval]; the opcode tables and the
      discriminator maps are [gmap]s.
    - a call either returns or raises: [outcome]. *)

From Stdlib Require Import ZArith Strings.Byte Ascii String DecimalString.
From Stdlib Require DecimalZ DecimalPos.
From stdpp Require Import gmap strings list fin_maps.

Local Open Scope string_scope.
Local Open Scope Z_scope.

(** ** Python runtime model *)

Module Py.

Abbreviation bytes := (list byte).

Inductive exn : Set := IndexError.

Inductive outcome (A : Type) : Type :=
| Return (a : A)
| Raise (e : exn).
Arguments Return {A} a.
Arguments Raise {A} e.

#[global] Instance outcome_bind : MBind outcome := fun A B k m =>
  match m with
  | Return a => k a
  | Raise e => Raise e
  end.

(** [try: body / except: pass]. The body either returns from the enclosing
    function ([Some]), falls through ([None]) or raises, in which case the
    handler swallows the exception and control falls through. *)
Definition try_except_pass {A} (body : outcome (option A)) : option A :=
  match body with
  | Return r => r
  | Raise _ => None
  end.

Inductive pyval : Type :=
| VStr (s : string)
| VInt (n : Z)
| VNone
| VTrueDiv (num den : Z).
(** [VTrueDiv a b] is the float that Python's true division [a / b] of two
    ints evaluates to; it is kept symbolic. *)

Abbreviation dict := (list (string * pyval)).

Fixpoint dict_get (d : dict) (k : string) : option pyval :=
  match d with
  | [] => None
  | (k', v) :: d' => if String.eqb k' k then Some v else dict_get d' k
  end.

Definition byte_val (b : byte) : Z := Z.of_N (Byte.to_N b).

(** [len(data)] *)
Definition len (data : bytes) : Z := Z.of_nat (length data).

(** [data[i]] for a literal index [i >= 0] *)
Definition getitem (data : bytes) (i : nat) : outcome Z :=
  match data !! i with
  | Some b => Return (byte_val b)
  | None => Raise IndexError
  end.

(** [data[lo:hi]] for literal bounds [0 <= lo <= hi] *)
Definition slice (data : bytes) (lo hi : nat) : bytes :=
  take (hi - lo) (drop lo data).

(** [int.from_bytes(bs, 'little')] *)
Fixpoint int_from_bytes_little (bs : bytes) : Z :=
  match bs with
  | [] => 0
  | b :: rest => byte_val b + 256 * int_from_bytes_little rest
  end.

Definition hex_digit (n : N) : ascii :=
  if (n <? 10)%N then ascii_of_N (48 + n) else ascii_of_N (87 + n).

(** [bs.hex()] *)
Fixpoint bytes_hex (bs : bytes) : string :=
  match bs with
  | [] => ""
  | b :: rest =>
      String (hex_digit (Byte.to_N b / 16))
        (String (hex_digit (Byte.to_N b mod 16)) (bytes_hex rest))
  end.

(** [str(n)], as used by the f-strings *)
Definition str_int (n : Z) : string := NilZero.string_of_int (Z.to_int n).

End Py.
Import Py.

(** ** tx_decode.py *)

Definition SYSTEM_PROGRAM_ID := "11111111111111111111111111111111".
Definition TOKEN_PROGRAM_ID := "TokenkegQfeZyiNwAJbNbGKPFXCWuBvf9Ss623VQ5DA".
Definition TOKEN_2022_PROGRAM_ID := "TokenzQdBNbLqP5VEhdkAS6EPFLC1PHnBqCXEpPxuEb".
Definition ASSOCIATED_TOKEN_PROGRAM_ID := "ATokenGPvbdGVxr1b2hvZbsiqW5xWH25efTNsLJA8knL".
Definition RAYDIUM_AMM_V4_PROGRAM_ID := "675kPX9MHTjS2zt1qfr1NYHuzeLXfQM9H24wFSUt1Mp8".
Definition RAYDIUM_CLMM_PROGRAM_ID := "CAMMCzo5YL8w4VFF8KVHrK22GGUsp5VTaW7grrKgrWqK".
Definition RAYDIUM_CPMM_PROGRAM_ID := "CPMMoo8L3F4NbTegBCKVNunggL7H1ZpdTHKxQB5qKP1C".

(** [f"Unknown({instruction_type})"] *)
Definition unknown_label (instruction_type : Z) : string :=
  "Unknown(" +:+ str_int instruction_type +:+ ")".

(** [TABLE.get(instruction_type, f"Unknown({instruction_type})")] *)
Definition name_of (table : gmap Z string) (instruction_type : Z) : string :=
  default (unknown_label instruction_type) (table !! instruction_type).

Definition invalid_length : dict := [("error", VStr "Invalid data length")].

Definition raw_result (instruction_name : string) (data : bytes) : dict :=
  [("type", VStr instruction_name); ("raw_data", VStr (bytes_hex data))].

Definition SYSTEM_INSTRUCTIONS : gmap Z string :=
  list_to_map [(2, "Transfer"); (3, "CreateAccount"); (8, "CreateAccountWithSeed")].

Definition decode_system_instruction (data : bytes) : outcome dict :=
  if len data <? 4 then Return invalid_length
  else
    let instruction_type := int_from_bytes_little (slice data 0 4) in
    let instruction_name := name_of SYSTEM_INSTRUCTIONS instruction_type in
    if instruction_type =? 2 then
      let lamports := int_from_bytes_little (slice data 4 12) in
      Return [("type", VStr instruction_name);
              ("lamports", VInt lamports);
              ("sol", VTrueDiv lamports 1000000000)]
    else Return (raw_result instruction_name data).

Definition TOKEN_INSTRUCTIONS : gmap Z string :=
  list_to_map [(1, "InitializeAccount"); (3, "Transfer"); (7, "MintTo");
               (8, "Burn"); (9, "CloseAccount")].

Definition decode_token_instruction (data : bytes) : outcome dict :=
  if len data <? 1 then Return invalid_length
  else
    instruction_type ← getitem data 0;
    let instruction_name := name_of TOKEN_INSTRUCTIONS instruction_type in
    if instruction_type =? 1 then
      Return [("type", VStr instruction_name);
              ("owner", if len data >=? 33
                        then VStr (bytes_hex (slice data 1 33)) else VNone)]
    else if instruction_type =? 3 then
      let amount := int_from_bytes_little (slice data 1 9) in
      Return [("type", VStr instruction_name); ("amount", VInt amount)]
    else Return (raw_result instruction_name data).

Definition TOKEN_2022_INSTRUCTIONS : gmap Z string :=
  list_to_map [(1, "InitializeAccount"); (3, "Transfer"); (7, "MintTo");
               (8, "Burn"); (9, "CloseAccount")].

Definition decode_token_2022_instruction (data : bytes) : outcome dict :=
  if len data <? 1 then Return invalid_length
  else
    instruction_type ← getitem data 0;
    let instruction_name := name_of TOKEN_2022_INSTRUCTIONS instruction_type in
    if instruction_type =? 1 then
      Return [("type", VStr instruction_name);
              ("owner", if len data >=? 33
                        then VStr (bytes_hex (slice data 1 33)) else VNone)]
    else if instruction_type =? 3 then
      let amount := int_from_bytes_little (slice data 1 9) in
      Return [("type", VStr instruction_name); ("amount", VInt amount)]
    else Return (raw_result instruction_name data).

Definition RAYDIUM_AMM_INSTRUCTIONS : gmap Z string :=
  list_to_map [(1, "Initialize"); (2, "Swap"); (3, "DepositAllTokenTypes");
               (4, "WithdrawAllTokenTypes");
               (5, "DepositSingleTokenTypeExactAmountIn");
               (6, "WithdrawSingleTokenTypeExactAmountOut")].

Definition decode_raydium_amm_instruction (data : bytes) : outcome dict :=
  if len data <? 1 then Return invalid_length
  else
    instruction_type ← getitem data 0;
    let instruction_name := name_of RAYDIUM_AMM_INSTRUCTIONS instruction_type in
    let returned :=
      if instruction_type =? 2 then
        try_except_pass
          (let amount_in := int_from_bytes_little (slice data 1 9) in
           let minimum_amount_out := int_from_bytes_little (slice data 9 17) in
           Return (Some [("type", VStr instruction_name);
                         ("amount_in", VInt amount_in);
                         ("minimum_amount_out", VInt minimum_amount_out)]))
      else if (instruction_type =? 3) || (instruction_type =? 4) then
        try_except_pass
          (let max_coin_amount := int_from_bytes_little (slice data 1 9) in
           let max_pc_amount := int_from_bytes_little (slice data 9 17) in
           Return (Some [("type", VStr instruction_name);
                         ("max_coin_amount", VInt max_coin_amount);
                         ("max_pc_amount", VInt max_pc_amount)]))
      else None in
    match returned with
    | Some d => Return d
    | None => Return (raw_result instruction_name data)
    end.

Definition RAYDIUM_CLMM_INSTRUCTIONS : gmap Z string :=
  list_to_map [(0, "CreatePool"); (1, "OpenPosition"); (2, "ClosePosition");
               (3, "Swap"); (4, "IncreasePosition"); (5, "DecreasePosition")].

Definition decode_raydium_clmm_instruction (data : bytes) : outcome dict :=
  if len data <? 1 then Return invalid_length
  else
    instruction_type ← getitem data 0;
    let instruction_name := name_of RAYDIUM_CLMM_INSTRUCTIONS instruction_type in
    let returned :=
      if instruction_type =? 3 then
        try_except_pass
          (let amount_in := int_from_bytes_little (slice data 1 9) in
           let amount_out_minimum := int_from_bytes_little (slice data 9 17) in
           let sqrt_price_limit := int_from_bytes_little (slice data 17 25) in
           Return (Some [("type", VStr instruction_name);
                         ("amount_in", VInt amount_in);
                         ("amount_out_minimum", VInt amount_out_minimum);
                         ("sqrt_price_limit", VInt sqrt_price_limit)]))
      else None in
    match returned with
    | Some d => Return d
    | None => Return (raw_result instruction_name data)
    end.

Definition RAYDIUM_CPMM_INSTRUCTIONS : gmap Z string :=
  list_to_map [(0, "CreateAmmConfig"); (1, "UpdateAmmConfig");
               (2, "UpdatePoolStatus"); (3, "CollectProtocolFee");
               (4, "CollectFundFee"); (5, "Initialize"); (6, "Deposit");
               (7, "Withdraw"); (8, "SwapBaseInput"); (9, "SwapBaseOutput")].

(** Three little-endian u64 fields at bytes 1..9, 9..17 and 17..25. *)
Definition cpmm_three (data : bytes) (instruction_name k0 k1 k2 : string) : dict :=
  [("type", VStr instruction_name);
   (k0, VInt (int_from_bytes_little (slice data 1 9)));
   (k1, VInt (int_from_bytes_little (slice data 9 17)));
   (k2, VInt (int_from_bytes_little (slice data 17 25)))].

(** Two little-endian u64 fields at bytes 1..9 and 9..17. *)
Definition cpmm_two (data : bytes) (instruction_name k0 k1 : string) : dict :=
  [("type", VStr instruction_name);
   (k0, VInt (int_from_bytes_little (slice data 1 9)));
   (k1, VInt (int_from_bytes_little (slice data 9 17)))].

Definition decode_raydium_cpmm_instruction (data : bytes) : outcome dict :=
  if len data <? 1 then Return invalid_length
  else
    instruction_type ← getitem data 8;
    let instruction_name := name_of RAYDIUM_CPMM_INSTRUCTIONS instruction_type in
    let returned :=
      try_except_pass
        (if instruction_type =? 5 then
           Return (Some (cpmm_three data instruction_name
                           "init_amount_0" "init_amount_1" "open_time"))
         else if instruction_type =? 6 then
           Return (Some (cpmm_three data instruction_name
                           "lp_token_amount" "maximum_token_0_amount"
                           "maximum_token_1_amount"))
         else if instruction_type =? 7 then
           Return (Some (cpmm_three data instruction_name
                           "lp_token_amount" "minimum_token_0_amount"
                           "minimum_token_1_amount"))
         else if instruction_type =? 8 then
           Return (Some (cpmm_two data instruction_name
                           "amount_in" "minimum_amount_out"))
         else if instruction_type =? 9 then
           Return (Some (cpmm_two data instruction_name
                           "max_amount_in" "amount_out"))
         else Return None) in
    match returned with
    | Some d => Return d
    | None => Return (raw_result instruction_name data)
    end.

(** [program_id_str] is [str(program_id)]. *)
Definition decode_instruction_data (program_id_str : string) (data : bytes)
  : outcome dict :=
  if String.eqb program_id_str SYSTEM_PROGRAM_ID then
    decode_system_instruction data
  else if String.eqb program_id_str TOKEN_PROGRAM_ID then
    decode_token_instruction data
  else if String.eqb program_id_str TOKEN_2022_PROGRAM_ID then
    decode_token_2022_instruction data
  else if String.eqb program_id_str RAYDIUM_AMM_V4_PROGRAM_ID then
    decode_raydium_amm_instruction data
  else if String.eqb program_id_str RAYDIUM_CPMM_PROGRAM_ID then
    decode_raydium_cpmm_instruction data
  else if String.eqb program_id_str RAYDIUM_CLMM_PROGRAM_ID then
    decode_raydium_clmm_instruction data
  else
    Return [("program", VStr program_id_str);
            ("raw_data", VStr (bytes_hex data))].

(** ** hashlib.sha256

    [util.py] calls the SHA-256 of Python's standard library. It is
    written out here after FIPS 180-4 so that discriminators can be
    evaluated; 32-bit words are [Z]s reduced modulo [2^32]. *)

Module SHA256.

Definition w32 (x : Z) : Z := x mod 2 ^ 32.
Definition add32 (x y : Z) : Z := w32 (x + y).
Definition rotr (n x : Z) : Z :=
  w32 (Z.lor (Z.shiftr x n) (Z.shiftl x (32 - n))).

Definition Ch (x y z : Z) : Z := Z.lxor (Z.land x y) (Z.ldiff z x).
Definition Maj (x y z : Z) : Z :=
  Z.lxor (Z.lxor (Z.land x y) (Z.land x z)) (Z.land y z).
Definition Sigma0 (x : Z) : Z := Z.lxor (Z.lxor (rotr 2 x) (rotr 13 x)) (rotr 22 x).
Definition Sigma1 (x : Z) : Z := Z.lxor (Z.lxor (rotr 6 x) (rotr 11 x)) (rotr 25 x).
Definition sigma0 (x : Z) : Z := Z.lxor (Z.lxor (rotr 7 x) (rotr 18 x)) (Z.shiftr x 3).
Definition sigma1 (x : Z) : Z := Z.lxor (Z.lxor (rotr 17 x) (rotr 19 x)) (Z.shiftr x 10).

(** The constants of the standard are fractional parts of roots of the
    first primes, and are derived here rather than listed. *)
Definition is_prime (n : Z) : bool :=
  forallb (fun d => negb (n mod d =? 0)) (seqZ 2 (Z.sqrt n - 1)).

Definition primes_below (bound : Z) : list Z :=
  filter (fun n => is_prime n = true) (seqZ 2 (bound - 2)).

(** [root_bits k acc n] refines [acc] by its [k] low bits into the largest
    number whose cube is at most [n]. *)
Fixpoint root_bits (k : nat) (acc n : Z) : Z :=
  match k with
  | O => acc
  | S k' =>
      let c := acc + 2 ^ Z.of_nat k' in
      root_bits k' (if c ^ 3 <=? n then c else acc) n
  end.

(** The first 32 bits of the fractional part of the cube root of [p]. *)
Definition frac_cbrt (p : Z) : Z := w32 (root_bits 36 0 (p * 2 ^ 96)).

(** The first 32 bits of the fractional part of the square root of [p]. *)
Definition frac_sqrt (p : Z) : Z := w32 (Z.sqrt (p * 2 ^ 64)).

(** The 64 round constants, from the primes 2 to 311. *)
Definition K : list Z := Eval vm_compute in frac_cbrt <$> primes_below 312.

(** The eight working variables, also used for the chaining value. *)
Record regs : Set := Regs { ra : Z; rb : Z; rc : Z; rd : Z;
                            re : Z; rf : Z; rg : Z; rh : Z }.

(** The initial chaining value, from the primes 2 to 19. *)
Definition H0 : regs :=
  Eval vm_compute in
    Regs (frac_sqrt 2) (frac_sqrt 3) (frac_sqrt 5) (frac_sqrt 7)
         (frac_sqrt 11) (frac_sqrt 13) (frac_sqrt 17) (frac_sqrt 19).

Definition round (s : regs) (k w : Z) : regs :=
  let t1 := add32 (add32 (add32 (rh s) (Sigma1 (re s)))
                         (add32 (Ch (re s) (rf s) (rg s)) k)) w in
  let t2 := add32 (Sigma0 (ra s)) (Maj (ra s) (rb s) (rc s)) in
  Regs (add32 t1 t2) (ra s) (rb s) (rc s) (add32 (rd s) t1) (re s) (rf s) (rg s).

Fixpoint rounds (s : regs) (ks ws : list Z) : regs :=
  match ks, ws with
  | k :: ks', w :: ws' => rounds (round s k w) ks' ws'
  | _, _ => s
  end.

(** [schedule n win] extends the message schedule by [n] words; [win]
    holds the sixteen words before the next one, oldest first. *)
Fixpoint schedule (n : nat) (win : list Z) : list Z :=
  match n, win with
  | S n', w16 :: rest =>
      let wt := add32 (add32 (sigma1 (nth 13 rest 0)) (nth 8 rest 0))
                      (add32 (sigma0 (nth 0 rest 0)) w16) in
      wt :: schedule n' (rest ++ [wt])
  | _, _ => []
  end.

Definition compress (cv : regs) (block : list Z) : regs :=
  let s := rounds cv K (block ++ schedule 48 block) in
  Regs (add32 (ra cv) (ra s)) (add32 (rb cv) (rb s))
       (add32 (rc cv) (rc s)) (add32 (rd cv) (rd s))
       (add32 (re cv) (re s)) (add32 (rf cv) (rf s))
       (add32 (rg cv) (rg s)) (add32 (rh cv) (rh s)).

Fixpoint blocks (n : nat) (cv : regs) (ws : list Z) : regs :=
  match n with
  | O => cv
  | S n' => blocks n' (compress cv (take 16 ws)) (drop 16 ws)
  end.

Definition byte_of_Z (z : Z) : byte :=
  default x00 (Byte.of_N (Z.to_N (z mod 256))).

Definition be32 (x : Z) : bytes :=
  [byte_of_Z (Z.shiftr x 24); byte_of_Z (Z.shiftr x 16);
   byte_of_Z (Z.shiftr x 8); byte_of_Z x].

Definition be64 (x : Z) : bytes := be32 (Z.shiftr x 32) ++ be32 x.

Definition pad (msg : bytes) : bytes :=
  msg ++ [x80] ++ replicate (Z.to_nat ((55 - len msg) mod 64)) x00
      ++ be64 (8 * len msg).

Fixpoint words (bs : bytes) : list Z :=
  match bs with
  | b0 :: b1 :: b2 :: b3 :: rest =>
      (((byte_val b0 * 256 + byte_val b1) * 256 + byte_val b2) * 256
       + byte_val b3) :: words rest
  | _ => []
  end.

Definition digest_bytes (s : regs) : bytes :=
  be32 (ra s) ++ be32 (rb s) ++ be32 (rc s) ++ be32 (rd s) ++
  be32 (re s) ++ be32 (rf s) ++ be32 (rg s) ++ be32 (rh s).

(** [hashlib.sha256(msg).digest()] *)
Definition sha256 (msg : bytes) : bytes :=
  let ws := words (pad msg) in
  digest_bytes (blocks (length ws / 16) H0 ws).

End SHA256.

(** ** util.py *)

(** [s.encode()] *)
Definition encode (s : string) : bytes := list_byte_of_string s.

(** [scope] defaults to ["global"] in the source. *)
Definition get_instruction_discriminator (instruction_name scope : string)
  : bytes :=
  let preimage := scope +:+ ":" +:+ instruction_name in
  let hash_bytes := SHA256.sha256 (encode preimage) in
  let discriminator := take 8 hash_bytes in
  discriminator.

Record discriminators : Type := Discriminators {
  func_disc : gmap string string;
  disc_func : gmap string string
}.

(** The body of the [for] loop of [create_discriminators]. *)
Definition add_discriminator (scope : string) (result : discriminators)
    (method_name : string) : discriminators :=
  let disc := bytes_hex (get_instruction_discriminator method_name scope) in
  Discriminators (<[method_name := disc]> (func_disc result))
                 (<[disc := method_name]> (disc_func result)).

Definition create_discriminators (method_names : list string) (scope : string)
  : discriminators :=
  foldl (add_discriminator scope) (Discriminators ∅ ∅) method_names.

(** [l[i]] on a list of strings, for a literal index [i >= 0] *)
Definition list_getitem (l : list string) (i : nat) : outcome string :=
  match l !! i with
  | Some s => Return s
  | None => Raise IndexError
  end.

(** [s.split(" ")] *)
Fixpoint split_space (s : string) : list string :=
  match s with
  | EmptyString => [EmptyString]
  | String c s' =>
      if Ascii.eqb c " " then EmptyString :: split_space s'
      else match split_space s' with
           | w :: ws => String c w :: ws
           | [] => [String c EmptyString]
           end
  end.

(** One value of the object loaded from [prog_func.json]: the keys
    ["methods"] and ["num_bytes"]. *)
Record program_info : Type := ProgramInfo {
  methods : list string;
  num_bytes : Z
}.

(** The body of the inner [for] loop of [create_discriminators_json_locally]. *)
Definition add_listed (discs : discriminators) (method : string)
  : outcome discriminators :=
  let strs := split_space method in
  m ← list_getitem strs 0;
  d ← list_getitem strs 1;
  Return (Discriminators (<[m := d]> (func_disc discs))
                         (<[d := m]> (disc_func discs))).

Fixpoint listed_discriminators (discs : discriminators)
    (method_list : list string) : outcome discriminators :=
  match method_list with
  | [] => Return discs
  | method :: rest =>
      discs' ← add_listed discs method;
      listed_discriminators discs' rest
  end.

(** The outer loop, over [prog_func.items()]. *)
Fixpoint programs_loop (result : gmap string discriminators)
    (items : list (string * program_info))
  : outcome (gmap string discriminators) :=
  match items with
  | [] => Return result
  | (prog_name, info) :: rest =>
      discs ←
        (if num_bytes info =? 8
         then Return (create_discriminators (methods info) "global")
         else listed_discriminators (Discriminators ∅ ∅) (methods info));
      programs_loop (<[prog_name := discs]> result) rest
  end.

(** [create_discriminators_json_locally], from the object read from
    [prog_func.json] (its items in order) to the object written to
    [discriminators.json]; the file is written only when the loop returns. *)
Definition create_discriminators_json_locally
    (prog_func : list (string * program_info))
  : outcome (gmap string discriminators) :=
  programs_loop ∅ prog_func.

(** ** Specification-side definitions

    Notions the statements below are phrased with; none of them is part of
    the program. *)

(** *** Hex text *)

Definition is_lower_hex (c : ascii) : bool :=
  let n := N_of_ascii c in
  ((48 <=? n) && (n <=? 57) || (97 <=? n) && (n <=? 102))%N.

Fixpoint string_forallb (p : ascii -> bool) (s : string) : bool :=
  match s with
  | EmptyString => true
  | String c s' => p c && string_forallb p s'
  end.

Definition unhex_digit (c : ascii) : option N :=
  let n := N_of_ascii c in
  if ((48 <=? n) && (n <=? 57))%N then Some (n - 48)%N
  else if ((97 <=? n) && (n <=? 102))%N then Some (n - 87)%N
  else None.

(** [bytes.fromhex] restricted to lower-case digits without blanks. *)
Fixpoint bytes_fromhex (s : string) : option bytes :=
  match s with
  | EmptyString => Some []
  | String hi (String lo s') =>
      h ← unhex_digit hi; l ← unhex_digit lo;
      b ← Byte.of_N (16 * h + l); rest ← bytes_fromhex s';
      Some (b :: rest)
  | String _ EmptyString => None
  end.

(** *** The dispatcher's registry *)

(** The program identifiers [decode_instruction_data] dispatches on, in the
    order of its [if]/[elif] chain. *)
Definition registered_programs : list string :=
  [SYSTEM_PROGRAM_ID; TOKEN_PROGRAM_ID; TOKEN_2022_PROGRAM_ID;
   RAYDIUM_AMM_V4_PROGRAM_ID; RAYDIUM_CPMM_PROGRAM_ID; RAYDIUM_CLMM_PROGRAM_ID].

(** The result when no branch of the dispatcher matches. *)
Definition unknown_program (program_id_str : string) (data : bytes) : dict :=
  [("program", VStr program_id_str); ("raw_data", VStr (bytes_hex data))].

(** The raw-hex fallback: the instruction name with the hex text of the
    whole buffer. *)
Definition raw_hex_fallback (r : outcome dict) (data : bytes) : Prop :=
  exists instruction_name : string, r = Return (raw_result instruction_name data).

(** Where each decoder finds its opcode and which table names it: the
    view of the six decoders as a registry. [opcode_of] is [None] when the
    buffer does not reach the end of the opcode field. *)
Record layout : Type := Layout {
  program_id : string;
  opcode_of : bytes -> option Z;
  rules : gmap Z string
}.

Definition byte_at (i : nat) (data : bytes) : option Z := byte_val <$> data !! i.

Definition u32_le_at_0 (data : bytes) : option Z :=
  if len data <? 4 then None else Some (int_from_bytes_little (slice data 0 4)).

Definition layouts : list layout :=
  [Layout SYSTEM_PROGRAM_ID u32_le_at_0 SYSTEM_INSTRUCTIONS;
   Layout TOKEN_PROGRAM_ID (byte_at 0) TOKEN_INSTRUCTIONS;
   Layout TOKEN_2022_PROGRAM_ID (byte_at 0) TOKEN_2022_INSTRUCTIONS;
   Layout RAYDIUM_AMM_V4_PROGRAM_ID (byte_at 0) RAYDIUM_AMM_INSTRUCTIONS;
   Layout RAYDIUM_CPMM_PROGRAM_ID (byte_at 8) RAYDIUM_CPMM_INSTRUCTIONS;
   Layout RAYDIUM_CLMM_PROGRAM_ID (byte_at 0) RAYDIUM_CLMM_INSTRUCTIONS].

Definition cpmm_layout : layout :=
  Layout RAYDIUM_CPMM_PROGRAM_ID (byte_at 8) RAYDIUM_CPMM_INSTRUCTIONS.

(** A [Deposit] buffer of 25 bytes. *)
Definition deposit_buffer : bytes :=
  ([x00; x01; x00; x00; x00; x00; x00; x00; x06] ++ replicate 16 x00)%list.

(** *** The discriminator maps *)

(** The key written to [disc_func] for a method name. *)
Definition disc_hex (scope method_name : string) : string :=
  bytes_hex (get_instruction_discriminator method_name scope).

(** The loop of [create_discriminators], for any way [key] of deriving the
    discriminator text from a method name. *)
Definition add_key (key : string -> string) (result : discriminators)
    (method_name : string) : discriminators :=
  Discriminators (<[method_name := key method_name]> (func_disc result))
                 (<[key method_name := method_name]> (disc_func result)).

Definition run_loop (key : string -> string) (names : list string)
  : discriminators :=
  foldl (add_key key) (Discriminators ∅ ∅) names.

(** What the two maps hold after the loop ran over [names]. *)
Definition built (key : string -> string) (names : list string)
    (r : discriminators) : Prop :=
  size (func_disc r) = length names
  /\ size (disc_func r) = length names
  /\ (forall k v, func_disc r !! k = Some v <-> k ∈ names /\ v = key k)
  /\ (forall d n, disc_func r !! d = Some n <-> n ∈ names /\ d = key n).

(** *** The field tables of the decoders *)

Definition is_token_program (program_id_str : string) : bool :=
  String.eqb program_id_str TOKEN_PROGRAM_ID
  || String.eqb program_id_str TOKEN_2022_PROGRAM_ID.

(** The integer fields each decoder extracts, per program and opcode, with
    the offset of their first byte; all are 8 bytes wide. *)
Definition integer_fields (program_id_str : string) (op : Z)
  : option (list (string * nat)) :=
  if String.eqb program_id_str SYSTEM_PROGRAM_ID then
    if op =? 2 then Some [("lamports", 4%nat)] else None
  else if is_token_program program_id_str then
    if op =? 3 then Some [("amount", 1%nat)] else None
  else if String.eqb program_id_str RAYDIUM_AMM_V4_PROGRAM_ID then
    if op =? 2 then Some [("amount_in", 1%nat); ("minimum_amount_out", 9%nat)]
    else if (op =? 3) || (op =? 4) then
      Some [("max_coin_amount", 1%nat); ("max_pc_amount", 9%nat)]
    else None
  else if String.eqb program_id_str RAYDIUM_CPMM_PROGRAM_ID then
    if op =? 5 then
      Some [("init_amount_0", 1%nat); ("init_amount_1", 9%nat);
            ("open_time", 17%nat)]
    else if op =? 6 then
      Some [("lp_token_amount", 1%nat); ("maximum_token_0_amount", 9%nat);
            ("maximum_token_1_amount", 17%nat)]
    else if op =? 7 then
      Some [("lp_token_amount", 1%nat); ("minimum_token_0_amount", 9%nat);
            ("minimum_token_1_amount", 17%nat)]
    else if op =? 8 then
      Some [("amount_in", 1%nat); ("minimum_amount_out", 9%nat)]
    else if op =? 9 then
      Some [("max_amount_in", 1%nat); ("amount_out", 9%nat)]
    else None
  else if String.eqb program_id_str RAYDIUM_CLMM_PROGRAM_ID then
    if op =? 3 then
      Some [("amount_in", 1%nat); ("amount_out_minimum", 9%nat);
            ("sqrt_price_limit", 17%nat)]
    else None
  else None.

(** The end offset of the last field. *)
Definition extent (fs : list (string * nat)) : nat :=
  foldr (fun f n => (f.2 + 8) `max` n)%nat 0%nat fs.

(** The token programs' [InitializeAccount], with its [owner] field. *)
Definition has_owner_field (program_id_str : string) (op : Z) : bool :=
  is_token_program program_id_str && (op =? 1).

Definition system_layout : layout :=
  Layout SYSTEM_PROGRAM_ID u32_le_at_0 SYSTEM_INSTRUCTIONS.

Definition token_layout : layout :=
  Layout TOKEN_PROGRAM_ID (byte_at 0) TOKEN_INSTRUCTIONS.

Definition amm_layout : layout :=
  Layout RAYDIUM_AMM_V4_PROGRAM_ID (byte_at 0) RAYDIUM_AMM_INSTRUCTIONS.

Definition clmm_layout : layout :=
  Layout RAYDIUM_CLMM_PROGRAM_ID (byte_at 0) RAYDIUM_CLMM_INSTRUCTIONS.

(** *** Method lines of [prog_func.json] *)

Fixpoint contains_space (s : string) : bool :=
  match s with
  | EmptyString => false
  | String c s' => Ascii.eqb c " " || contains_space s'
  end.

Definition no_space (method : string) : Prop := contains_space method = false.

Definition first_word (s : string) : string := hd "" (split_space s).

Definition second_word (s : string) : string := nth 1 (split_space s) "".

(** An item that makes the loop fail: listed methods, one without a space. *)
Definition bad_item (item : string * program_info) : Prop :=
  num_bytes item.2 <> 8 /\ Exists no_space (methods item.2).

(** What one item contributes to the result. *)
Definition entry_of (info : program_info) : outcome discriminators :=
  if num_bytes info =? 8
  then Return (create_discriminators (methods info) "global")
  else listed_discriminators (Discriminators ∅ ∅) (methods info).

Definition sample_prog_func : list (string * program_info) :=
  [("amm", ProgramInfo ["swap 09"; "deposit 03"] 1);
   ("cpmm", ProgramInfo ["initialize"] 8)].

(** A [prog_func] object with a method line that has no discriminator. *)
Definition unsplit_prog_func : list (string * program_info) :=
  [("cpmm", ProgramInfo ["initialize"] 8);
   ("amm", ProgramInfo ["swap 09"; "deposit"] 1)].

(** ** Sanity checks of the embedding on concrete inputs *)

Example round_constants :
  length SHA256.K = 64%nat
  /\ SHA256.K !! 0%nat = Some 0x428a2f98
  /\ SHA256.K !! 63%nat = Some 0xc67178f2
  /\ SHA256.ra SHA256.H0 = 0x6a09e667.
Proof. repeat split. Qed.

Example sha256_empty :
  bytes_hex (SHA256.sha256 [])
  = "e3b0c44298fc1c149afbf4c8996fb92427ae41e4649b934ca495991b7852b855".
Proof. vm_compute. reflexivity. Qed.

Example sha256_abc :
  bytes_hex (SHA256.sha256 (encode "abc"))
  = "ba7816bf8f01cfea414140de5dae2223b00361a396177a9cb410ff61f20015ad".
Proof. vm_compute. reflexivity. Qed.

Example sha256_two_blocks :
  bytes_hex (SHA256.sha256 (replicate 119 x61))
  = "31eba51c313a5c08226adf18d4a359cfdfd8d2e816b13f4af952f7ea6584dcfb".
Proof. vm_compute. reflexivity. Qed.

Example sha256_pad_edge :
  bytes_hex (SHA256.sha256 (replicate 56 x61))
  = "b35439a4ac6f0948b6d6f9e3c6af0f5f590ce20f1bde7090ef7970686ec6738a".
Proof. vm_compute. reflexivity. Qed.

Example discriminator_global_initialize :
  bytes_hex (get_instruction_discriminator "initialize" "global")
  = "afaf6d1f0d989bed".
Proof. vm_compute. reflexivity. Qed.

Example split_examples :
  split_space "swap f8c69e91e17587c8" = ["swap"; "f8c69e91e17587c8"]
  /\ split_space "swap" = ["swap"]
  /\ split_space "" = [""]
  /\ split_space "a  b " = ["a"; ""; "b"; ""].
Proof. repeat split. Qed.

Example token_unknown_opcode_255 :
  decode_token_instruction [xff; x01]
  = Return (raw_result "Unknown(255)" [xff; x01]).
Proof. vm_compute. reflexivity. Qed.

Example system_create_account :
  decode_system_instruction [x03; x00; x00; x00; x2a]
  = Return [("type", VStr "CreateAccount"); ("raw_data", VStr "030000002a")].
Proof. vm_compute. reflexivity. Qed.

(** ** Facts about the runtime model *)

Section PyFacts.
Implicit Types (data bs : bytes) (b : byte) (i : nat).

Lemma byte_val_range b : 0 <= byte_val b < 256.
  Proof.
    unfold byte_val. pose proof (Byte.to_N_bounded b) as Hb.
    split; [apply N2Z.is_nonneg | lia].
  Qed.

Lemma len_short data (n : Z) : (len data <? n) = true <-> len data < n.
  Proof. apply Z.ltb_lt. Qed.

Lemma len_long data (n : Z) : (len data <? n) = false <-> n <= len data.
  Proof. apply Z.ltb_ge. Qed.

Lemma getitem_Some data i b :
    data !! i = Some b -> getitem data i = Return (byte_val b).
  Proof. unfold getitem. by intros ->. Qed.

Lemma getitem_None data i :
    (length data <= i)%nat -> getitem data i = Raise IndexError.
  Proof. intros Hi. unfold getitem. by rewrite lookup_ge_None_2. Qed.

Lemma lookup_len data i b : data !! i = Some b -> Z.of_nat i < len data.
  Proof. intros H%lookup_lt_Some. unfold len. lia. Qed.

Lemma slice_length data lo hi :
    length (slice data lo hi) = ((hi - lo) `min` (length data - lo))%nat.
  Proof. unfold slice. by rewrite length_take, length_drop. Qed.

Lemma slice_whole_tail data lo hi :
    (length data <= hi)%nat -> slice data lo hi = drop lo data.
  Proof.
    intros H. unfold slice. apply take_ge. rewrite length_drop. lia.
  Qed.

Lemma int_from_bytes_little_app bs1 bs2 :
    int_from_bytes_little (bs1 ++ bs2)
    = int_from_bytes_little bs1
      + 256 ^ Z.of_nat (length bs1) * int_from_bytes_little bs2.
  Proof.
    induction bs1 as [|b bs1 IH]; simpl int_from_bytes_little.
    - simpl. lia.
    - rewrite IH. cbn [length]. rewrite Nat2Z.inj_succ, Z.pow_succ_r by lia. lia.
  Qed.

Lemma int_from_bytes_little_range bs :
    0 <= int_from_bytes_little bs < 256 ^ Z.of_nat (length bs).
  Proof.
    induction bs as [|b bs IH]; simpl int_from_bytes_little.
    - simpl. lia.
    - cbn [length]. rewrite Nat2Z.inj_succ, Z.pow_succ_r by lia.
      pose proof (byte_val_range b). lia.
  Qed.

Lemma int_from_bytes_little_zeros n :
    int_from_bytes_little (replicate n x00) = 0.
  Proof. induction n as [|n IH]; simpl; [done | rewrite IH; done]. Qed.

  (** Zero bytes appended to a little-endian number do not change it. *)
Lemma int_from_bytes_little_pad bs n :
    int_from_bytes_little (bs ++ replicate n x00) = int_from_bytes_little bs.
  Proof. rewrite int_from_bytes_little_app, int_from_bytes_little_zeros. lia. Qed.

End PyFacts.

(** *** [bytes.hex] is the lower-case, two-digits-per-byte encoding *)

Lemma bytes_hex_length (bs : bytes) :
  String.length (bytes_hex bs) = (2 * length bs)%nat.
Proof. induction bs as [|b bs IH]; simpl; [done | rewrite IH; lia]. Qed.

Lemma bytes_hex_lower (bs : bytes) :
  string_forallb is_lower_hex (bytes_hex bs) = true.
Proof.
  induction bs as [|b bs IH]; [done|].
  cbn [bytes_hex string_forallb]. rewrite IH.
  by destruct b; vm_compute.
Qed.

Lemma bytes_fromhex_hex (bs : bytes) : bytes_fromhex (bytes_hex bs) = Some bs.
Proof.
  induction bs as [|b bs IH]; [done|].
  cbn [bytes_hex bytes_fromhex]. rewrite IH.
  by destruct b; vm_compute.
Qed.

Lemma bytes_hex_inj (bs1 bs2 : bytes) : bytes_hex bs1 = bytes_hex bs2 -> bs1 = bs2.
Proof.
  intros H. apply (f_equal bytes_fromhex) in H.
  rewrite !bytes_fromhex_hex in H. congruence.
Qed.

(** ** The dispatcher and its registered programs *)

Ltac skip_guard H :=
  match goal with
  | |- context [len ?d <? ?n] =>
      replace (len d <? n) with false by (symmetry; apply len_long; exact H)
  end.

Lemma dispatch_unregistered (program_id_str : string) (data : bytes) :
  program_id_str ∉ registered_programs ->
  decode_instruction_data program_id_str data
  = Return (unknown_program program_id_str data).
Proof.
  intros Hnot. unfold decode_instruction_data.
  repeat match goal with
         | |- context [String.eqb ?a ?b] =>
             destruct (String.eqb_spec a b) as [->|_];
             [exfalso; apply Hnot; unfold registered_programs; set_solver|]
         end.
  reflexivity.
Qed.

Lemma cpmm_guard_passes_short (data : bytes) :
  (1 <= length data <= 8)%nat ->
  decode_raydium_cpmm_instruction data = Raise IndexError.
Proof.
  intros [Hlo Hhi]. unfold decode_raydium_cpmm_instruction.
  assert (1 <= len data) as Hlen by (unfold len; lia).
  skip_guard Hlen.
  rewrite getitem_None by lia. reflexivity.
Qed.

(** The guards that do reject a buffer without an opcode field: fewer than
    4 bytes for the system program, the empty buffer for every decoder. *)
Lemma system_short_buffer_rejected (data : bytes) :
  (length data < 4)%nat -> decode_system_instruction data = Return invalid_length.
Proof.
  intros H. unfold decode_system_instruction.
  replace (len data <? 4) with true
    by (symmetry; apply len_short; unfold len; lia).
  reflexivity.
Qed.

Lemma empty_buffer_rejected (program_id_str : string) :
  program_id_str ∈ registered_programs ->
  decode_instruction_data program_id_str [] = Return invalid_length.
Proof.
  unfold registered_programs. intros H.
  repeat (apply elem_of_cons in H as [->|H]); [..|by apply elem_of_nil in H];
    reflexivity.
Qed.

(** ** Claims *)

(** C1 (the code departs from the claim). A buffer too short for the opcode
    field should give the error result; the CPMM decoder guards with
    [len(data) < 1] but reads [data[8]], so on every buffer of 1 to 8 bytes
    the call raises [IndexError] instead of returning. *)
Theorem cpmm_short_buffer_raises (data : bytes) :
  (1 <= length data <= 8)%nat ->
  decode_instruction_data RAYDIUM_CPMM_PROGRAM_ID data = Raise IndexError
  /\ decode_instruction_data RAYDIUM_CPMM_PROGRAM_ID data
     <> Return invalid_length.
Proof.
  intros H. change (decode_instruction_data RAYDIUM_CPMM_PROGRAM_ID data)
    with (decode_raydium_cpmm_instruction data).
  rewrite (cpmm_guard_passes_short data H). split; [reflexivity | discriminate].
Qed.

Lemma cpmm_short_buffer_raises_witness :
  (1 <= length [x00] <= 8)%nat
  /\ decode_instruction_data RAYDIUM_CPMM_PROGRAM_ID [x00] = Raise IndexError.
Proof.
  split; [simpl; lia|].
  apply (cpmm_short_buffer_raises [x00]). simpl; lia.
Defined.

(** C3. For a program identifier outside the registry every buffer, the
    empty one included, decodes to the unknown-program result, whose
    [raw_data] is the lower-case hex text of the buffer: two digits per
    byte, all in [0-9a-f], and reading the text back yields the buffer. The
    empty buffer gives the empty string. *)
Theorem unknown_program_raw_hex (program_id_str : string) (data : bytes) :
  program_id_str ∉ registered_programs ->
  exists raw_hex : string,
    decode_instruction_data program_id_str data
    = Return [("program", VStr program_id_str); ("raw_data", VStr raw_hex)]
    /\ raw_hex = bytes_hex data
    /\ bytes_fromhex raw_hex = Some data
    /\ string_forallb is_lower_hex raw_hex = true
    /\ String.length raw_hex = (2 * length data)%nat
    /\ (data = [] -> raw_hex = "").
Proof.
  intros Hnot. exists (bytes_hex data).
  split; [exact (dispatch_unregistered _ _ Hnot)|].
  split; [reflexivity|].
  split; [apply bytes_fromhex_hex|].
  split; [apply bytes_hex_lower|].
  split; [apply bytes_hex_length|].
  by intros ->.
Qed.

Lemma unknown_program_raw_hex_witness :
  (ASSOCIATED_TOKEN_PROGRAM_ID ∉ registered_programs)
  /\ (exists raw_hex : string,
        decode_instruction_data ASSOCIATED_TOKEN_PROGRAM_ID [x0a; xff]
        = Return [("program", VStr ASSOCIATED_TOKEN_PROGRAM_ID);
                  ("raw_data", VStr raw_hex)]
        /\ raw_hex = "0aff").
Proof.
  assert (ASSOCIATED_TOKEN_PROGRAM_ID ∉ registered_programs) as Hnot.
  { refine (bool_decide_unpack _ _). vm_compute. exact I. }
  split; [exact Hnot|].
  destruct (unknown_program_raw_hex ASSOCIATED_TOKEN_PROGRAM_ID [x0a; xff] Hnot)
    as (raw_hex & Hres & Hhex & _).
  exists raw_hex. split; [exact Hres | exact Hhex].
Defined.

(** *** The CPMM decoder takes its opcode from byte 8 *)

(** Whatever the buffer, the instruction name of the CPMM result is looked
    up under the value of byte 8. *)
Lemma cpmm_type_from_byte_8 (data : bytes) (b8 : byte) :
  data !! 8%nat = Some b8 ->
  exists d, decode_raydium_cpmm_instruction data = Return d
            /\ dict_get d "type"
               = Some (VStr (name_of RAYDIUM_CPMM_INSTRUCTIONS (byte_val b8))).
Proof.
  intros H8. unfold decode_raydium_cpmm_instruction.
  assert (1 <= len data) as Hlen by (apply lookup_len in H8; lia).
  skip_guard Hlen. rewrite (getitem_Some _ _ _ H8).
  cbn [mbind outcome_bind].
  repeat match goal with
         | |- context [byte_val b8 =? ?k] => destruct (byte_val b8 =? k)
         end; eexists; (split; [reflexivity | reflexivity]).
Qed.

(** C4. In the CPMM decoder a buffer whose byte 8 is 5 is decoded as
    opcode 5 ([Initialize], with its three fields), whatever byte 0 holds:
    overwriting byte 0 with any value leaves the selected instruction
    unchanged. *)
Theorem cpmm_opcode_read_at_offset_8 (data : bytes) (b0 : byte) :
  data !! 8%nat = Some x05 ->
  decode_raydium_cpmm_instruction data
  = Return [("type", VStr "Initialize");
            ("init_amount_0", VInt (int_from_bytes_little (slice data 1 9)));
            ("init_amount_1", VInt (int_from_bytes_little (slice data 9 17)));
            ("open_time", VInt (int_from_bytes_little (slice data 17 25)))]
  /\ (exists d, decode_raydium_cpmm_instruction (<[0%nat := b0]> data) = Return d
                /\ dict_get d "type" = Some (VStr "Initialize")).
Proof.
  intros H8. split.
  - unfold decode_raydium_cpmm_instruction.
    assert (1 <= len data) as Hlen by (apply lookup_len in H8; lia).
    skip_guard Hlen. rewrite (getitem_Some _ _ _ H8). reflexivity.
  - apply (cpmm_type_from_byte_8 (<[0%nat := b0]> data) x05).
    by rewrite list_lookup_insert_ne.
Qed.

Lemma cpmm_opcode_read_at_offset_8_witness :
  exists d,
    decode_raydium_cpmm_instruction
      (<[0%nat := x09]> [x00; x01; x00; x00; x00; x00; x00; x00; x05]) = Return d
    /\ dict_get d "type" = Some (VStr "Initialize").
Proof.
  exact (proj2 (cpmm_opcode_read_at_offset_8
                  [x00; x01; x00; x00; x00; x00; x00; x00; x05] x09 eq_refl)).
Defined.

Lemma token_tables_equal : TOKEN_INSTRUCTIONS = TOKEN_2022_INSTRUCTIONS.
Proof. reflexivity. Qed.

Lemma token_2022_as_token (data : bytes) :
  decode_token_2022_instruction data = decode_token_instruction data.
Proof.
  unfold decode_token_instruction, decode_token_2022_instruction.
  rewrite token_tables_equal. reflexivity.
Qed.

(** C8. The two token-program decoders agree on every buffer. *)
Theorem token_decoders_agree (data : bytes) :
  decode_token_instruction data = decode_token_2022_instruction data.
Proof.
  unfold decode_token_instruction, decode_token_2022_instruction.
  destruct (len data <? 1); [reflexivity|].
  destruct (getitem data 0) as [instruction_type|e]; [|reflexivity].
  cbn [mbind outcome_bind]. rewrite token_tables_equal. reflexivity.
Qed.

(** C9. In the CPMM decoder the fields start at byte 1, so the first one
    covers the opcode byte: on a buffer of at least 25 bytes whose byte 8
    is 6 ([Deposit]), [lp_token_amount] is the little-endian value of bytes
    1 to 8, and its most significant byte is the opcode 6. *)
Theorem cpmm_deposit_field_overlaps_opcode (data : bytes) :
  (25 <= length data)%nat ->
  data !! 8%nat = Some x06 ->
  exists lp_token_amount : Z,
    decode_raydium_cpmm_instruction data
    = Return [("type", VStr "Deposit");
              ("lp_token_amount", VInt lp_token_amount);
              ("maximum_token_0_amount",
                VInt (int_from_bytes_little (slice data 9 17)));
              ("maximum_token_1_amount",
                VInt (int_from_bytes_little (slice data 17 25)))]
    /\ lp_token_amount = int_from_bytes_little (slice data 1 9)
    /\ slice data 1 9 = (slice data 1 8 ++ [x06])%list
    /\ lp_token_amount = int_from_bytes_little (slice data 1 8) + 6 * 256 ^ 7
    /\ lp_token_amount / 256 ^ 7 = 6.
Proof.
  intros Hlen H8. exists (int_from_bytes_little (slice data 1 9)).
  assert (slice data 1 9 = (slice data 1 8 ++ [x06])%list) as Hsplit.
  { unfold slice. change (9 - 1)%nat with (S (8 - 1)).
    apply take_S_r. rewrite lookup_drop. exact H8. }
  assert (int_from_bytes_little (slice data 1 9)
          = int_from_bytes_little (slice data 1 8) + 6 * 256 ^ 7) as Hval.
  { rewrite Hsplit, int_from_bytes_little_app, slice_length.
    replace ((8 - 1) `min` (length data - 1))%nat with 7%nat by lia.
    change (int_from_bytes_little [x06]) with 6. lia. }
  split; [|split; [reflexivity|split; [exact Hsplit|split; [exact Hval|]]]].
  - unfold decode_raydium_cpmm_instruction.
    assert (1 <= len data) as Hlen1 by (unfold len; lia).
    skip_guard Hlen1. rewrite (getitem_Some _ _ _ H8). reflexivity.
  - rewrite Hval.
    pose proof (int_from_bytes_little_range (slice data 1 8)) as Hr.
    rewrite slice_length in Hr.
    replace ((8 - 1) `min` (length data - 1))%nat with 7%nat in Hr by lia.
    change (Z.of_nat 7) with 7 in Hr.
    rewrite Z.div_add by lia. rewrite Z.div_small by lia. lia.
Qed.

Lemma cpmm_deposit_field_overlaps_opcode_witness :
  exists lp_token_amount : Z,
    decode_raydium_cpmm_instruction deposit_buffer
    = Return [("type", VStr "Deposit");
              ("lp_token_amount", VInt lp_token_amount);
              ("maximum_token_0_amount", VInt 0);
              ("maximum_token_1_amount", VInt 0)]
    /\ lp_token_amount / 256 ^ 7 = 6.
Proof.
  destruct (cpmm_deposit_field_overlaps_opcode deposit_buffer)
    as (lp & Hres & _ & _ & _ & Hmsb).
  - vm_compute. lia.
  - reflexivity.
  - exists lp. split; [exact Hres | exact Hmsb].
Defined.

(** C10. A token-program buffer that starts with byte 1 is decoded as
    [InitializeAccount] with an [owner] key in every case: the value is
    [None] for lengths 1 to 32, and the hex text of bytes 1 to 32 from
    length 33 on: 64 lower-case hex digits that read back to exactly the
    32 bytes at indices 1 to 32. Both token decoders behave so. *)
Theorem token_initialize_account_owner (data : bytes) :
  data !! 0%nat = Some x01 ->
  ((length data <= 32)%nat ->
     decode_token_instruction data
     = Return [("type", VStr "InitializeAccount"); ("owner", VNone)]
     /\ decode_token_2022_instruction data
        = Return [("type", VStr "InitializeAccount"); ("owner", VNone)]
     /\ dict_get [("type", VStr "InitializeAccount"); ("owner", VNone)] "owner"
        = Some VNone)
  /\ ((33 <= length data)%nat ->
        exists owner : string,
          decode_token_instruction data
          = Return [("type", VStr "InitializeAccount"); ("owner", VStr owner)]
          /\ decode_token_2022_instruction data
             = Return [("type", VStr "InitializeAccount"); ("owner", VStr owner)]
          /\ owner = bytes_hex (slice data 1 33)
          /\ bytes_fromhex owner = Some (slice data 1 33)
          /\ string_forallb is_lower_hex owner = true
          /\ String.length owner = 64%nat
          /\ length (slice data 1 33) = 32%nat
          /\ (forall i : nat,
                (i < 32)%nat -> slice data 1 33 !! i = data !! S i)).
Proof.
  intros H0.
  assert (1 <= len data) as Hlen by (apply lookup_len in H0; lia).
  pose proof (token_2022_as_token data) as Hsame.
  split; intros Hn.
  - assert (decode_token_instruction data
            = Return [("type", VStr "InitializeAccount"); ("owner", VNone)])
      as Hres.
    { unfold decode_token_instruction. skip_guard Hlen.
      rewrite (getitem_Some _ _ _ H0). cbn [mbind outcome_bind].
      change (byte_val x01 =? 1) with true. cbv iota.
      replace (len data >=? 33) with false
        by (symmetry; rewrite Z.geb_leb; apply Z.leb_gt; unfold len; lia).
      reflexivity. }
    split; [exact Hres | split; [congruence | reflexivity]].
  - exists (bytes_hex (slice data 1 33)).
    assert (decode_token_instruction data
            = Return [("type", VStr "InitializeAccount");
                      ("owner", VStr (bytes_hex (slice data 1 33)))]) as Hres.
    { unfold decode_token_instruction. skip_guard Hlen.
      rewrite (getitem_Some _ _ _ H0). cbn [mbind outcome_bind].
      change (byte_val x01 =? 1) with true. cbv iota.
      replace (len data >=? 33) with true
        by (symmetry; rewrite Z.geb_leb; apply Z.leb_le; unfold len; lia).
      reflexivity. }
    assert (length (slice data 1 33) = 32%nat) as H32
      by (rewrite slice_length; lia).
    split; [exact Hres|]. split; [congruence|]. split; [reflexivity|].
    split; [apply bytes_fromhex_hex|]. split; [apply bytes_hex_lower|].
    split; [rewrite bytes_hex_length, H32; reflexivity|].
    split; [exact H32|].
    intros i Hi. unfold slice. change (33 - 1)%nat with 32%nat.
    rewrite lookup_take_lt by exact Hi. rewrite lookup_drop. reflexivity.
Qed.

Lemma token_initialize_account_owner_witness :
  decode_token_instruction [x01; xaa]
  = Return [("type", VStr "InitializeAccount"); ("owner", VNone)]
  /\ decode_token_instruction
       ([x01; x00; x01; xab; xcd; xef] ++ replicate 28 x7f ++ [xff])%list
     = Return [("type", VStr "InitializeAccount");
               ("owner",
                VStr "0001abcdef7f7f7f7f7f7f7f7f7f7f7f7f7f7f7f7f7f7f7f7f7f7f7f7f7f7f7f")].
Proof.
  split.
  - refine (proj1 (proj1 (token_initialize_account_owner [x01; xaa] eq_refl) _)).
    simpl. lia.
  - destruct (proj2 (token_initialize_account_owner
                       ([x01; x00; x01; xab; xcd; xef] ++ replicate 28 x7f
                        ++ [xff])%list eq_refl))
      as (owner & Hres & _ & Hhex & _).
    + simpl. lia.
    + rewrite Hres, Hhex. reflexivity.
Defined.

(** *** Transfers *)

(** C6. On the nine bytes [03 e8 03 00 00 00 00 00 00] the token decoder
    returns [Transfer] with [amount] 1000. On every buffer of at least 12
    bytes whose first four bytes read 2 little-endian, the system decoder
    returns [Transfer] with [lamports], the unsigned little-endian value of
    the eight bytes 4 to 11, and [sol], the quotient [lamports / 10^9]. *)
Theorem transfer_happy_path :
  decode_token_instruction [x03; xe8; x03; x00; x00; x00; x00; x00; x00]
  = Return [("type", VStr "Transfer"); ("amount", VInt 1000)]
  /\ forall data : bytes,
      (12 <= length data)%nat ->
      int_from_bytes_little (slice data 0 4) = 2 ->
      exists lamports : Z,
        decode_system_instruction data
        = Return [("type", VStr "Transfer");
                  ("lamports", VInt lamports);
                  ("sol", VTrueDiv lamports (10 ^ 9))]
        /\ lamports = int_from_bytes_little (slice data 4 12)
        /\ length (slice data 4 12) = 8%nat
        /\ 0 <= lamports < 2 ^ 64.
Proof.
  split; [vm_compute; reflexivity|].
  intros data Hlen Hop. exists (int_from_bytes_little (slice data 4 12)).
  assert (length (slice data 4 12) = 8%nat) as H8
    by (rewrite slice_length; lia).
  split; [|split; [reflexivity|split; [exact H8|]]].
  - unfold decode_system_instruction.
    assert (4 <= len data) as Hlen4 by (unfold len; lia).
    skip_guard Hlen4. cbv zeta. rewrite Hop. reflexivity.
  - pose proof (int_from_bytes_little_range (slice data 4 12)) as Hr.
    rewrite H8 in Hr. exact Hr.
Qed.

Lemma transfer_happy_path_witness :
  decode_system_instruction
    [x02; x00; x00; x00; x00; xca; x9a; x3b; x00; x00; x00; x00]
  = Return [("type", VStr "Transfer");
            ("lamports", VInt 1000000000);
            ("sol", VTrueDiv 1000000000 1000000000)].
Proof.
  destruct (proj2 transfer_happy_path
              [x02; x00; x00; x00; x00; xca; x9a; x3b; x00; x00; x00; x00])
    as (lamports & Hres & Hval & _).
  - simpl. lia.
  - reflexivity.
  - rewrite Hres, Hval. reflexivity.
Defined.

(** *** Truncated fields *)

(** C2 as stated fails: the token decoder on the two bytes [03 e8], a
    [Transfer] cut after one byte of its amount, returns an amount decoded
    from that single byte and not the raw-hex fallback. *)
Lemma truncated_token_transfer_not_raw :
  decode_token_instruction [x03; xe8]
  = Return [("type", VStr "Transfer"); ("amount", VInt 232)]
  /\ ~ raw_hex_fallback (decode_token_instruction [x03; xe8]) [x03; xe8].
Proof.
  split; [vm_compute; reflexivity|].
  intros [instruction_name H]. vm_compute in H. discriminate H.
Qed.

Lemma token_transfer_any_length (data : bytes) :
  data !! 0%nat = Some x03 ->
  decode_token_instruction data
  = Return [("type", VStr "Transfer");
            ("amount", VInt (int_from_bytes_little (slice data 1 9)))].
Proof.
  intros H0. unfold decode_token_instruction.
  assert (1 <= len data) as Hlen by (apply lookup_len in H0; lia).
  skip_guard Hlen. rewrite (getitem_Some _ _ _ H0). reflexivity.
Qed.

Lemma system_transfer_any_length (data : bytes) :
  (4 <= length data)%nat ->
  int_from_bytes_little (slice data 0 4) = 2 ->
  decode_system_instruction data
  = Return [("type", VStr "Transfer");
            ("lamports", VInt (int_from_bytes_little (slice data 4 12)));
            ("sol", VTrueDiv (int_from_bytes_little (slice data 4 12)) (10 ^ 9))].
Proof.
  intros Hlen Hop. unfold decode_system_instruction.
  assert (4 <= len data) as Hlen4 by (unfold len; lia).
  skip_guard Hlen4. cbv zeta. rewrite Hop. reflexivity.
Qed.

(** C2, amended. The token and system decoders have no length check on
    their integer fields: slices are clipped to the buffer and the bytes
    that are present are decoded, the missing high-order bytes counting as
    zero. A token buffer with byte 0 equal to 3 and at most 8 bytes gives
    [Transfer] with [amount] read from bytes 1 onwards, the same result as
    for the buffer filled up with zero bytes to 9 bytes, and never the
    raw-hex fallback; likewise a system buffer of 4 to 11 bytes with opcode
    2 and its [lamports], filled up to 12 bytes. *)
Theorem truncated_transfer_decodes_present_bytes :
  (forall data : bytes,
     data !! 0%nat = Some x03 ->
     (length data <= 8)%nat ->
     decode_token_instruction data
     = Return [("type", VStr "Transfer");
               ("amount", VInt (int_from_bytes_little (drop 1 data)))]
     /\ decode_token_instruction data
        = decode_token_instruction
            (data ++ replicate (9 - length data) x00)%list
     /\ ~ raw_hex_fallback (decode_token_instruction data) data)
  /\ (forall data : bytes,
        (4 <= length data <= 11)%nat ->
        int_from_bytes_little (slice data 0 4) = 2 ->
        decode_system_instruction data
        = Return [("type", VStr "Transfer");
                  ("lamports", VInt (int_from_bytes_little (drop 4 data)));
                  ("sol", VTrueDiv (int_from_bytes_little (drop 4 data)) (10 ^ 9))]
        /\ decode_system_instruction data
           = decode_system_instruction
               (data ++ replicate (12 - length data) x00)%list
        /\ ~ raw_hex_fallback (decode_system_instruction data) data).
Proof.
  split.
  - intros data H0 Hlen.
    pose proof (token_transfer_any_length data H0) as Hres.
    rewrite slice_whole_tail in Hres by lia.
    split; [exact Hres|]. split.
    + rewrite Hres, token_transfer_any_length
        by (rewrite lookup_app_l; [exact H0 | apply lookup_lt_Some in H0; lia]).
      rewrite slice_whole_tail by (rewrite length_app, length_replicate; lia).
      rewrite drop_app_le by (apply lookup_lt_Some in H0; lia).
      by rewrite int_from_bytes_little_pad.
    + rewrite Hres. intros [instruction_name H]. discriminate H.
  - intros data [Hlo Hhi] Hop.
    pose proof (system_transfer_any_length data Hlo Hop) as Hres.
    rewrite slice_whole_tail in Hres by lia.
    split; [exact Hres|]. split.
    + rewrite Hres, system_transfer_any_length.
      * rewrite slice_whole_tail by (rewrite length_app, length_replicate; lia).
        rewrite drop_app_le by lia.
        by rewrite int_from_bytes_little_pad.
      * rewrite length_app. lia.
      * unfold slice in *. rewrite drop_0 in *.
        rewrite take_app_le by lia. exact Hop.
    + rewrite Hres. intros [instruction_name H]. discriminate H.
Qed.

Lemma truncated_transfer_decodes_present_bytes_witness :
  decode_token_instruction [x03; xe8; x03]
  = Return [("type", VStr "Transfer"); ("amount", VInt 1000)]
  /\ decode_system_instruction [x02; x00; x00; x00; xe8; x03]
     = Return [("type", VStr "Transfer"); ("lamports", VInt 1000);
               ("sol", VTrueDiv 1000 (10 ^ 9))].
Proof.
  split.
  - refine (proj1 (proj1 truncated_transfer_decodes_present_bytes
                     [x03; xe8; x03] eq_refl _)).
    simpl. lia.
  - refine (proj1 (proj2 truncated_transfer_decodes_present_bytes
                     [x02; x00; x00; x00; xe8; x03] _ eq_refl)).
    simpl. lia.
Defined.

(** *** Unknown opcodes *)

Lemma layouts_registered : program_id <$> layouts = registered_programs.
Proof. reflexivity. Qed.


Lemma byte_at_Some (i : nat) (data : bytes) (op : Z) :
  byte_at i data = Some op ->
  getitem data i = Return op /\ Z.of_nat i < len data.
Proof.
  unfold byte_at, getitem. destruct (data !! i) as [b|] eqn:Hb; [|done].
  intros [= <-]. split; [done | by apply lookup_len in Hb].
Qed.




(** *** Discriminators *)

Lemma sha256_length (msg : bytes) : length (SHA256.sha256 msg) = 32%nat.
Proof. reflexivity. Qed.

Lemma discriminator_length (instruction_name scope : string) :
  length (get_instruction_discriminator instruction_name scope) = 8%nat.
Proof.
  unfold get_instruction_discriminator.
  rewrite length_take, sha256_length. reflexivity.
Qed.

Section DiscriminatorLoop.
Variable key : string -> string.

Lemma run_loop_snoc (names : list string) (x : string) :
    run_loop key (names ++ [x]) = add_key key (run_loop key names) x.
  Proof. unfold run_loop. by rewrite foldl_snoc. Qed.

Lemma built_nil : built key [] (run_loop key []).
  Proof.
    unfold built, run_loop. cbn [foldl func_disc disc_func length].
    rewrite map_size_empty.
    split; [reflexivity|]. split; [reflexivity|].
    split; intros a c; rewrite lookup_empty;
      (split; [intros H; discriminate H | intros [H _]; by apply elem_of_nil in H]).
  Qed.

Lemma built_snoc (names : list string) (x : string) (r : discriminators) :
    x ∉ names ->
    key x ∉ key <$> names ->
    built key names r ->
    built key (names ++ [x]) (add_key key r x).
  Proof.
    intros Hx Hdx (Hsz1 & Hsz2 & Hfd & Hdf).
    assert (func_disc r !! x = None) as Hnone1.
    { destruct (func_disc r !! x) as [v|] eqn:E; [|reflexivity].
      apply Hfd in E as [E _]. contradiction. }
    assert (disc_func r !! key x = None) as Hnone2.
    { destruct (disc_func r !! key x) as [n|] eqn:E; [|reflexivity].
      apply Hdf in E as [E1 E2]. exfalso. apply Hdx. rewrite E2.
      apply list_elem_of_fmap_2. exact E1. }
    unfold built, add_key. cbn [func_disc disc_func].
    rewrite length_app. cbn [length].
    rewrite (map_size_insert_None _ _ _ Hnone1).
    rewrite (map_size_insert_None _ _ _ Hnone2).
    split; [lia|]. split; [lia|]. split.
    - intros k v. rewrite elem_of_app, list_elem_of_singleton.
      destruct (decide (k = x)) as [->|Hne].
      + rewrite lookup_insert_eq. split.
        * intros [= <-]. split; [by right | reflexivity].
        * intros [_ ->]. reflexivity.
      + rewrite lookup_insert_ne by congruence. rewrite Hfd. split.
        * intros [Hin ->]. split; [by left | reflexivity].
        * intros [[Hin|Heq] ->]; [by split | contradiction].
    - intros d n. rewrite elem_of_app, list_elem_of_singleton.
      destruct (decide (d = key x)) as [->|Hne].
      + rewrite lookup_insert_eq. split.
        * intros [= <-]. split; [by right | reflexivity].
        * intros [[Hin| ->] Heq]; [|reflexivity].
          exfalso. apply Hdx. rewrite Heq.
          apply list_elem_of_fmap_2. exact Hin.
      + rewrite lookup_insert_ne by congruence. rewrite Hdf. split.
        * intros [Hin ->]. split; [by left | reflexivity].
        * intros [[Hin| ->] ->]; [by split | contradiction].
  Qed.

Lemma run_loop_built (names : list string) :
    NoDup names -> NoDup (key <$> names) -> built key names (run_loop key names).
  Proof.
    induction names as [|x names IH] using rev_ind; intros Hnames Hkeys.
    - apply built_nil.
    - apply NoDup_app in Hnames as (Hnames & Hfresh & _).
      rewrite fmap_app in Hkeys.
      apply NoDup_app in Hkeys as (Hkeys & Hkfresh & _).
      rewrite run_loop_snoc. apply built_snoc.
      + intros Hin. apply (Hfresh x Hin). apply list_elem_of_here.
      + intros Hin. apply (Hkfresh _ Hin). apply list_elem_of_here.
      + apply IH; assumption.
  Qed.

End DiscriminatorLoop.

Lemma create_discriminators_run_loop (method_names : list string) (scope : string) :
  create_discriminators method_names scope = run_loop (disc_hex scope) method_names.
Proof. reflexivity. Qed.

(** C7. The discriminator is the first 8 bytes of the SHA-256 of the
    UTF-8 text ["<scope>:<instruction_name>"], so equal arguments give the
    same 8 bytes. For a list of distinct names whose hex discriminators
    are distinct too, [create_discriminators] returns two maps with as many
    entries as names, the first sending each name to its hex discriminator
    and the second sending that discriminator back to the name. *)
Theorem discriminators_derivation_and_round_trip :
  (forall instruction_name scope : string,
     get_instruction_discriminator instruction_name scope
     = take 8 (SHA256.sha256 (encode (scope +:+ ":" +:+ instruction_name)))
     /\ length (get_instruction_discriminator instruction_name scope) = 8%nat
     /\ forall instruction_name' scope' : string,
         instruction_name' = instruction_name -> scope' = scope ->
         get_instruction_discriminator instruction_name' scope'
         = get_instruction_discriminator instruction_name scope)
  /\ (forall (method_names : list string) (scope : string),
        NoDup method_names ->
        NoDup (disc_hex scope <$> method_names) ->
        let result := create_discriminators method_names scope in
        size (func_disc result) = length method_names
        /\ size (disc_func result) = length method_names
        /\ forall method_name : string,
            method_name ∈ method_names ->
            exists disc : string,
              disc = bytes_hex (get_instruction_discriminator method_name scope)
              /\ func_disc result !! method_name = Some disc
              /\ disc_func result !! disc = Some method_name).
Proof.
  split.
  - intros instruction_name scope.
    split; [reflexivity|]. split; [apply discriminator_length|].
    by intros ?? -> ->.
  - intros method_names scope Hnames Hdiscs result.
    subst result. rewrite create_discriminators_run_loop.
    destruct (run_loop_built (disc_hex scope) method_names Hnames Hdiscs)
      as (Hsz1 & Hsz2 & Hfd & Hdf).
    split; [exact Hsz1|]. split; [exact Hsz2|].
    intros method_name Hin. exists (disc_hex scope method_name).
    split; [reflexivity|]. split.
    + apply Hfd. split; [exact Hin | reflexivity].
    + apply Hdf. split; [exact Hin | reflexivity].
Qed.

Lemma discriminators_derivation_and_round_trip_witness :
  size (func_disc (create_discriminators ["initialize"; "transfer"] "global"))
  = 2%nat
  /\ size (disc_func (create_discriminators ["initialize"; "transfer"] "global"))
     = 2%nat
  /\ disc_func (create_discriminators ["initialize"; "transfer"] "global")
       !! "afaf6d1f0d989bed" = Some "initialize".
Proof.
  assert (NoDup ["initialize"; "transfer"]) as Hnames.
  { refine (bool_decide_unpack _ _). vm_compute. exact I. }
  assert (NoDup (disc_hex "global" <$> ["initialize"; "transfer"])) as Hdiscs.
  { refine (bool_decide_unpack _ _). vm_compute. exact I. }
  destruct (proj2 discriminators_derivation_and_round_trip
              ["initialize"; "transfer"] "global" Hnames Hdiscs)
    as (Hsz1 & Hsz2 & Hrt).
  split; [exact Hsz1|]. split; [exact Hsz2|].
  destruct (Hrt "initialize") as (disc & Hd & _ & Hback).
  - apply list_elem_of_here.
  - rewrite Hd in Hback. exact Hback.
Defined.

(** ** Further properties of the decoders *)

Ltac unfold_decoders :=
  unfold decode_system_instruction, decode_token_instruction,
    decode_token_2022_instruction, decode_raydium_amm_instruction,
    decode_raydium_clmm_instruction, decode_raydium_cpmm_instruction,
    try_except_pass.

(** Case analysis along the branches of a decoder. *)
Ltac split_branches :=
  repeat first
    [ match goal with
      | |- context [len ?d <? ?n] => destruct (Z.ltb_spec (len d) n)
      | |- context [getitem ?d ?i] =>
          let H := fresh "Hget" in
          destruct (getitem d i) eqn:H; cbn [mbind outcome_bind]
      | |- context [?a =? ?b] => destruct (Z.eqb_spec a b)
      end
    | progress cbn [orb] ].

(** Case analysis on the program identifier, along the dispatcher's chain. *)
Ltac split_programs :=
  unfold decode_instruction_data;
  repeat match goal with
         | |- context [String.eqb ?a ?b] =>
             destruct (String.eqb_spec a b) as [->|?]
         end.

(** Evaluates the comparisons of closed keys. *)
Ltac eval_key_tests :=
  repeat match goal with
         | |- context [String.eqb ?a ?b] =>
             let r := eval vm_compute in (String.eqb a b) in
             change (String.eqb a b) with r
         end.

(** One goal per registered layout, with the dispatcher resolved to the
    layout's decoder. *)
Ltac split_layouts HL :=
  unfold layouts in HL;
  repeat (apply elem_of_cons in HL as [->|HL]); [..|by apply elem_of_nil in HL];
  cbn [program_id opcode_of rules] in *;
  unfold decode_instruction_data, integer_fields, is_token_program in *;
  repeat match goal with
         | |- context [String.eqb ?a ?b] =>
             let r := eval vm_compute in (String.eqb a b) in
             change (String.eqb a b) with r
         | H : context [String.eqb ?a ?b] |- _ =>
             let r := eval vm_compute in (String.eqb a b) in
             change (String.eqb a b) with r in H
         end;
  cbn [orb] in *; cbv iota in *.

(** Uses [Hop : opcode_of L data = Some op] to pass the guard and the
    opcode read of the decoder in the goal. *)
Ltac read_opcode Hop :=
  unfold_decoders;
  lazymatch type of Hop with
  | u32_le_at_0 ?d = Some _ =>
      let E := fresh "Hlen" in
      unfold u32_le_at_0 in Hop;
      destruct (Z.ltb_spec (len d) 4) as [E|E]; [discriminate Hop|];
      injection Hop as Hop;
      replace (len d <? 4) with false by (symmetry; apply len_long; exact E)
  | byte_at ?i ?d = Some _ =>
      let Hget := fresh "Hget" in
      let Hlen := fresh "Hlen" in
      apply byte_at_Some in Hop as [Hget Hlen];
      replace (len d <? 1) with false by (symmetry; apply len_long; lia);
      rewrite Hget; cbn [mbind outcome_bind]
  end.

Ltac in_layouts :=
  unfold layouts, system_layout, token_layout, amm_layout, clmm_layout,
    cpmm_layout;
  repeat first [apply list_elem_of_here | apply list_elem_of_further].

Lemma field_u64 (data : bytes) (lo hi : nat) :
  (hi - lo <= 8)%nat -> 0 <= int_from_bytes_little (slice data lo hi) < 2 ^ 64.
Proof.
  intros H. pose proof (int_from_bytes_little_range (slice data lo hi)) as Hr.
  rewrite slice_length in Hr.
  assert (256 ^ Z.of_nat ((hi - lo) `min` (length data - lo)) <= 256 ^ 8).
  { apply Z.pow_le_mono_r; lia. }
  change (2 ^ 64) with (256 ^ 8). lia.
Qed.

Lemma getitem_Raise_inv (data : bytes) (i : nat) (e : exn) :
  getitem data i = Raise e -> (length data <= i)%nat.
Proof.
  unfold getitem. destruct (data !! i) eqn:E; [discriminate|].
  intros _. by apply lookup_ge_None.
Qed.

Lemma getitem_Return_inv (data : bytes) (i : nat) (v : Z) :
  getitem data i = Return v -> byte_at i data = Some v.
Proof.
  unfold getitem, byte_at. destruct (data !! i) eqn:E; [|discriminate].
  by intros [= <-].
Qed.

Ltac no_raise :=
  match goal with
  | H : getitem ?d ?i = Raise _ |- _ =>
      apply getitem_Raise_inv in H; unfold len in *; exfalso; lia
  end.

(** X1. The dispatcher raises in exactly one situation: the CPMM program
    with a buffer of 1 to 8 bytes. Every other call returns a dictionary. *)
Theorem dispatcher_raises_iff (program_id_str : string) (data : bytes) (e : exn) :
  decode_instruction_data program_id_str data = Raise e
  <-> program_id_str = RAYDIUM_CPMM_PROGRAM_ID /\ (1 <= length data <= 8)%nat.
Proof.
  split.
  - split_programs; unfold_decoders; split_branches;
      try discriminate; try no_raise.
    all: intros _; split; [reflexivity|].
    all: apply getitem_Raise_inv in Hget; unfold len in *; lia.
  - intros [-> [Hlo Hhi]]. destruct e.
    change (decode_instruction_data RAYDIUM_CPMM_PROGRAM_ID data)
      with (decode_raydium_cpmm_instruction data).
    unfold decode_raydium_cpmm_instruction.
    replace (len data <? 1) with false
      by (symmetry; apply len_long; unfold len; lia).
    by rewrite getitem_None by lia.
Qed.

(** X2. The error dictionary is returned exactly for the buffers the
    guards reject: fewer than 4 bytes for the system program, the empty
    buffer for the five other registered programs. *)
Theorem error_result_iff (program_id_str : string) (data : bytes) :
  decode_instruction_data program_id_str data = Return invalid_length
  <-> (program_id_str = SYSTEM_PROGRAM_ID /\ (length data < 4)%nat)
      \/ (program_id_str ∈ registered_programs
          /\ program_id_str <> SYSTEM_PROGRAM_ID /\ data = []).
Proof.
  split.
  - split_programs; unfold_decoders; split_branches; try discriminate.
    all: intros _.
    all: try (left; split; [reflexivity | unfold len in *; lia]).
    all: right; split; [unfold registered_programs; set_solver|].
    all: split; [discriminate|].
    all: destruct data; [reflexivity | unfold len in *; simpl in *; lia].
  - intros [[-> H] | (Hin & Hne & ->)].
    + by apply system_short_buffer_rejected.
    + by apply empty_buffer_rejected.
Qed.

Lemma decoded_type_entry (L : layout) (data : bytes) (op : Z) :
  L ∈ layouts ->
  opcode_of L data = Some op ->
  exists d, decode_instruction_data (program_id L) data = Return d
            /\ dict_get d "type" = Some (VStr (name_of (rules L) op)).
Proof.
  intros HL Hop.
  split_layouts HL; read_opcode Hop; try subst op; split_branches;
    eexists; split; reflexivity.
Qed.

(** X3. Whenever the buffer contains the opcode field of a registered
    program, the call returns a dictionary whose ["type"] is the table name
    of that opcode (or its [Unknown] label), and which has neither an
    ["error"] nor a ["program"] key. *)
Theorem type_is_name_of_opcode (L : layout) (data : bytes) (op : Z) :
  L ∈ layouts ->
  opcode_of L data = Some op ->
  exists d, decode_instruction_data (program_id L) data = Return d
            /\ dict_get d "type" = Some (VStr (name_of (rules L) op))
            /\ dict_get d "error" = None
            /\ dict_get d "program" = None.
Proof.
  intros HL Hop.
  split_layouts HL; read_opcode Hop; try subst op; split_branches;
    eexists; repeat split.
Qed.

Lemma type_is_name_of_opcode_witness :
  exists d, decode_instruction_data RAYDIUM_CPMM_PROGRAM_ID deposit_buffer = Return d
            /\ dict_get d "type" = Some (VStr "Deposit").
Proof.
  destruct (type_is_name_of_opcode cpmm_layout deposit_buffer 6)
    as (d & Hd & Ht & _).
  - in_layouts.
  - reflexivity.
  - exists d. split; [exact Hd | exact Ht].
Defined.

(** X4. A ["raw_data"] entry, whichever branch produced it, is the hex
    text of the whole input buffer, from which the buffer can be read back. *)
Theorem raw_data_is_lossless (program_id_str : string) (data : bytes)
    (d : dict) (v : pyval) :
  decode_instruction_data program_id_str data = Return d ->
  dict_get d "raw_data" = Some v ->
  v = VStr (bytes_hex data) /\ bytes_fromhex (bytes_hex data) = Some data.
Proof.
  intros Hd Hv. split; [|apply bytes_fromhex_hex].
  revert Hd Hv.
  split_programs; unfold_decoders; split_branches; try discriminate.
  all: intros [= <-]; unfold invalid_length, raw_result, cpmm_three, cpmm_two;
    cbn [dict_get]; eval_key_tests; cbv iota.
  all: try discriminate.
  all: by intros [= <-].
Qed.

Lemma raw_data_is_lossless_witness :
  VStr "0701" = VStr (bytes_hex [x07; x01])
  /\ bytes_fromhex (bytes_hex [x07; x01]) = Some [x07; x01].
Proof.
  apply (raw_data_is_lossless TOKEN_PROGRAM_ID [x07; x01]
           (raw_result "MintTo" [x07; x01]) (VStr "0701"));
    reflexivity.
Defined.

(** X5. Every integer in a returned dictionary is an unsigned 64-bit
    value, whatever the program and the buffer. *)
Theorem integer_values_fit_u64 (program_id_str : string) (data : bytes)
    (d : dict) (k : string) (n : Z) :
  decode_instruction_data program_id_str data = Return d ->
  dict_get d k = Some (VInt n) ->
  0 <= n < 2 ^ 64.
Proof.
  split_programs; unfold_decoders; split_branches; try discriminate.
  all: intros [= <-]; unfold invalid_length, raw_result, cpmm_three, cpmm_two;
    cbn [dict_get].
  all: repeat match goal with
              | |- context [String.eqb ?a ?b] => destruct (String.eqb a b)
              | |- context [len ?a >=? ?b] => destruct (len a >=? b)
              end.
  all: try discriminate.
  all: intros [= <-]; apply field_u64; simpl; lia.
Qed.

Lemma integer_values_fit_u64_witness : 0 <= 18446744073709551615 < 2 ^ 64.
Proof.
  apply (integer_values_fit_u64 TOKEN_PROGRAM_ID
           (x03 :: replicate 8 xff)
           [("type", VStr "Transfer"); ("amount", VInt 18446744073709551615)]
           "amount");
    reflexivity.
Defined.

(** X6. For every registered program and every opcode with integer
    fields, a buffer that contains the opcode decodes to a dictionary that
    holds each field of the table, read little-endian from the 8 bytes at
    its offset (clipped to the buffer); it has one entry per field besides
    ["type"] (and ["sol"] for the system program) and no ["raw_data"]. *)
Theorem integer_fields_decoded (L : layout) (data : bytes) (op : Z)
    (fs : list (string * nat)) :
  L ∈ layouts ->
  opcode_of L data = Some op ->
  integer_fields (program_id L) op = Some fs ->
  exists d,
    decode_instruction_data (program_id L) data = Return d
    /\ (forall k off, (k, off) ∈ fs ->
          dict_get d k
          = Some (VInt (int_from_bytes_little (slice data off (off + 8)))))
    /\ length d
       = S (length fs
            + (if String.eqb (program_id L) SYSTEM_PROGRAM_ID then 1 else 0))
    /\ dict_get d "raw_data" = None.
Proof.
  intros HL Hop Hfs. split_layouts HL; read_opcode Hop; try subst op;
    revert Hfs; split_branches; try (exfalso; lia); try discriminate;
    intros [= <-];
    eexists; (split; [reflexivity|]); (split; [|split; reflexivity]);
    intros k off Hin;
    repeat (apply elem_of_cons in Hin as [[= -> ->]|Hin]);
    try (by apply elem_of_nil in Hin); reflexivity.
Qed.

Lemma integer_fields_decoded_witness :
  exists d,
    decode_instruction_data RAYDIUM_AMM_V4_PROGRAM_ID
      ([x02; x10; x27] ++ replicate 6 x00 ++ [x01; x01])%list = Return d
    /\ dict_get d "amount_in" = Some (VInt 10000)
    /\ dict_get d "minimum_amount_out" = Some (VInt 257).
Proof.
  destruct (integer_fields_decoded amm_layout
              ([x02; x10; x27] ++ replicate 6 x00 ++ [x01; x01])%list 2
              [("amount_in", 1%nat); ("minimum_amount_out", 9%nat)])
    as (d & Hd & Hf & _).
  - in_layouts.
  - reflexivity.
  - reflexivity.
  - exists d. split; [exact Hd|]. split.
    + rewrite (Hf "amount_in" 1%nat) by apply list_elem_of_here. reflexivity.
    + rewrite (Hf "minimum_amount_out" 9%nat)
        by apply list_elem_of_further, list_elem_of_here.
      reflexivity.
Defined.

(** *** Which bytes a decoder depends on *)

Lemma slice_app_zeros (data : bytes) (lo hi k : nat) :
  int_from_bytes_little (slice (data ++ replicate k x00) lo hi)
  = int_from_bytes_little (slice data lo hi).
Proof.
  unfold slice. rewrite drop_app, drop_replicate, take_app, take_replicate.
  apply int_from_bytes_little_pad.
Qed.

Lemma slice_app_covered (data extra : bytes) (lo hi : nat) :
  (hi <= length data)%nat -> slice (data ++ extra) lo hi = slice data lo hi.
Proof.
  intros H. unfold slice. rewrite drop_app, take_app.
  replace (hi - lo - length (drop lo data))%nat with 0%nat
    by (rewrite length_drop; lia).
  by rewrite take_0, app_nil_r.
Qed.

Lemma slice_insert_before (data : bytes) (i lo hi : nat) (b : byte) :
  (i < lo)%nat -> slice (<[i := b]> data) lo hi = slice data lo hi.
Proof. intros H. unfold slice. by rewrite drop_insert_lt. Qed.

Lemma byte_at_app (data extra : bytes) (i : nat) (op : Z) :
  byte_at i data = Some op -> byte_at i (data ++ extra) = Some op.
Proof.
  unfold byte_at. destruct (data !! i) as [b|] eqn:E; [|discriminate].
  intros H. by rewrite (lookup_app_l_Some _ _ _ _ E).
Qed.

Lemma u32_le_at_0_app (data extra : bytes) (op : Z) :
  u32_le_at_0 data = Some op -> u32_le_at_0 (data ++ extra) = Some op.
Proof.
  unfold u32_le_at_0.
  destruct (Z.ltb_spec (len data) 4) as [|H]; [discriminate|]. intros [= <-].
  unfold len in *.
  replace (Z.of_nat (length (data ++ extra)) <? 4) with false
    by (symmetry; apply Z.ltb_ge; rewrite length_app; lia).
  by rewrite slice_app_covered by lia.
Qed.

Lemma opcode_of_app (L : layout) (data extra : bytes) (op : Z) :
  L ∈ layouts ->
  opcode_of L data = Some op -> opcode_of L (data ++ extra) = Some op.
Proof.
  intros HL. unfold layouts in HL.
  repeat (apply elem_of_cons in HL as [->|HL]); [..|by apply elem_of_nil in HL];
    cbn [opcode_of]; auto using byte_at_app, u32_le_at_0_app.
Qed.

(** X7. For an opcode with integer fields, appending zero bytes to the
    buffer never changes the result: a truncated field is read as if the
    buffer were filled up with zeros. This holds for all six decoders, the
    ones with a [try] block included. *)
Theorem zero_padding_preserves_fields (L : layout) (data : bytes) (op : Z)
    (fs : list (string * nat)) (k : nat) :
  L ∈ layouts ->
  opcode_of L data = Some op ->
  integer_fields (program_id L) op = Some fs ->
  decode_instruction_data (program_id L) (data ++ replicate k x00)
  = decode_instruction_data (program_id L) data.
Proof.
  intros HL Hop Hfs.
  pose proof (opcode_of_app L data (replicate k x00) op HL Hop) as Hop'.
  split_layouts HL; read_opcode Hop; read_opcode Hop'; try subst op;
    try rewrite Hop'; revert Hfs; split_branches;
    try (exfalso; lia); try discriminate; intros _;
    unfold cpmm_three, cpmm_two; by rewrite !slice_app_zeros.
Qed.

Lemma zero_padding_preserves_fields_witness :
  decode_instruction_data RAYDIUM_CLMM_PROGRAM_ID
    ([x03; x05] ++ replicate 23 x00)%list
  = decode_instruction_data RAYDIUM_CLMM_PROGRAM_ID [x03; x05].
Proof.
  apply (zero_padding_preserves_fields clmm_layout [x03; x05] 3
           [("amount_in", 1%nat); ("amount_out_minimum", 9%nat);
            ("sqrt_price_limit", 17%nat)] 23);
    [in_layouts | reflexivity | reflexivity].
Defined.

(** X8. For an opcode with integer fields, bytes after the end of the
    last field are ignored: the result depends only on the first [extent]
    bytes of the buffer. *)
Theorem trailing_bytes_ignored (L : layout) (data extra : bytes) (op : Z)
    (fs : list (string * nat)) :
  L ∈ layouts ->
  opcode_of L data = Some op ->
  integer_fields (program_id L) op = Some fs ->
  (extent fs <= length data)%nat ->
  decode_instruction_data (program_id L) (data ++ extra)
  = decode_instruction_data (program_id L) data.
Proof.
  intros HL Hop Hfs Hlen.
  pose proof (opcode_of_app L data extra op HL Hop) as Hop'.
  split_layouts HL; read_opcode Hop; read_opcode Hop'; try subst op;
    try rewrite Hop'; revert Hfs Hlen; split_branches;
    try (exfalso; lia); try discriminate; intros [= <-];
    unfold extent; cbn [foldr snd]; intros Hext;
    unfold cpmm_three, cpmm_two; by rewrite !slice_app_covered by lia.
Qed.

Lemma trailing_bytes_ignored_witness :
  decode_instruction_data SYSTEM_PROGRAM_ID
    ((x02 :: replicate 11 x00) ++ [xde; xad])%list
  = decode_instruction_data SYSTEM_PROGRAM_ID (x02 :: replicate 11 x00).
Proof.
  apply (trailing_bytes_ignored system_layout (x02 :: replicate 11 x00)
           [xde; xad] 2 [("lamports", 4%nat)]);
    [in_layouts | reflexivity | reflexivity | vm_compute; lia].
Defined.

(** X9. When the CPMM decoder extracts fields (opcodes 5 to 9), byte 0
    of the buffer has no influence on the result. *)
Theorem cpmm_fields_ignore_byte_0 (data : bytes) (b0 : byte) (op : Z)
    (fs : list (string * nat)) :
  byte_at 8 data = Some op ->
  integer_fields RAYDIUM_CPMM_PROGRAM_ID op = Some fs ->
  decode_raydium_cpmm_instruction (<[0%nat := b0]> data)
  = decode_raydium_cpmm_instruction data.
Proof.
  intros Hop Hfs.
  assert (byte_at 8 (<[0%nat := b0]> data) = Some op) as Hop'
    by (unfold byte_at in *; by rewrite list_lookup_insert_ne).
  unfold integer_fields, is_token_program in Hfs.
  repeat match type of Hfs with
         | context [String.eqb ?a ?b] =>
             let r := eval vm_compute in (String.eqb a b) in
             change (String.eqb a b) with r in Hfs
         end.
  cbn [orb] in Hfs; cbv iota in Hfs.
  read_opcode Hop; read_opcode Hop'. revert Hfs. split_branches;
    try (exfalso; lia); try discriminate; intros _;
    unfold cpmm_three, cpmm_two; by rewrite !slice_insert_before by lia.
Qed.

Lemma cpmm_fields_ignore_byte_0_witness :
  decode_raydium_cpmm_instruction (<[0%nat := xff]> deposit_buffer)
  = decode_raydium_cpmm_instruction deposit_buffer.
Proof.
  apply (cpmm_fields_ignore_byte_0 deposit_buffer xff 6
           [("lp_token_amount", 1%nat); ("maximum_token_0_amount", 9%nat);
            ("maximum_token_1_amount", 17%nat)]);
    reflexivity.
Defined.

(** X10. A registered program's result is the raw-hex fallback exactly
    when the buffer contains an opcode that has no integer fields and is
    not the token programs' [InitializeAccount]; truncation never leads to
    it. *)
Theorem raw_fallback_iff (L : layout) (data : bytes) :
  L ∈ layouts ->
  raw_hex_fallback (decode_instruction_data (program_id L) data) data
  <-> exists op, opcode_of L data = Some op
                 /\ integer_fields (program_id L) op = None
                 /\ has_owner_field (program_id L) op = false.
Proof.
  intros HL. split.
  - intros [name Hraw]. revert Hraw. unfold has_owner_field.
    split_layouts HL; unfold_decoders; unfold u32_le_at_0, raw_result,
      cpmm_three, cpmm_two, invalid_length;
      split_branches; try discriminate; try (exfalso; lia).
    all: intros _.
    all: try (apply getitem_Return_inv in Hget).
    all: eexists; (split; [first [eassumption | reflexivity]|]).
    all: split_branches; try (exfalso; lia); split; reflexivity.
  - intros (op & Hop & Hfs & Hown). unfold has_owner_field in Hown.
    exists (name_of (rules L) op).
    split_layouts HL; read_opcode Hop; try subst op; revert Hfs Hown;
      split_branches; try (exfalso; lia); try discriminate; reflexivity.
Qed.

Lemma raw_fallback_iff_witness :
  raw_hex_fallback (decode_instruction_data TOKEN_PROGRAM_ID [x09]) [x09]
  /\ ~ raw_hex_fallback (decode_instruction_data TOKEN_PROGRAM_ID [x03]) [x03].
Proof.
  split.
  - apply (raw_fallback_iff token_layout [x09]); [in_layouts|].
    exists 9. repeat split.
  - intros H. apply (raw_fallback_iff token_layout [x03]) in H; [|in_layouts].
    destruct H as (op & Hop & Hfs & _). injection Hop as <-.
    discriminate Hfs.
Defined.

(** *** Labels and buffers can be told apart *)

Lemma str_int_inj (n m : Z) : str_int n = str_int m -> n = m.
Proof.
  unfold str_int. intros H.
  assert (forall z, Z.to_int z <> Decimal.Pos Decimal.Nil
                    /\ Z.to_int z <> Decimal.Neg Decimal.Nil) as Hnn.
  { intros [|p|p]; simpl; split; try discriminate; intros [= E];
      by apply DecimalPos.Unsigned.to_uint_nonnil in E. }
  apply (f_equal NilZero.int_of_string) in H.
  rewrite !NilZero.isi in H by apply Hnn.
  injection H as H. by apply DecimalZ.to_int_inj.
Qed.

Lemma string_length_append (s t : string) :
  String.length (s +:+ t) = (String.length s + String.length t)%nat.
Proof.
  induction s as [|c s IH]; [reflexivity|].
  change (S (String.length (s +:+ t)) = S (String.length s + String.length t)).
  by rewrite IH.
Qed.

Lemma append_inj_l (s1 s2 t : string) : s1 +:+ t = s2 +:+ t -> s1 = s2.
Proof.
  intros H.
  assert (String.length s1 = String.length s2) as Hlen.
  { apply (f_equal String.length) in H. rewrite !string_length_append in H. lia. }
  revert s2 H Hlen. induction s1 as [|c s1 IH]; intros [|c2 s2] H Hlen;
    try discriminate; [reflexivity|].
  change (String c (s1 +:+ t) = String c2 (s2 +:+ t)) in H.
  injection H as -> H. f_equal. apply IH; [exact H|].
  simpl in Hlen. lia.
Qed.

Lemma append_inj_r (p s1 s2 : string) : p +:+ s1 = p +:+ s2 -> s1 = s2.
Proof.
  induction p as [|c p IH]; [done|]. intros H. apply IH.
  change (String c (p +:+ s1) = String c (p +:+ s2)) in H. by injection H.
Qed.

Lemma unknown_label_inj (n m : Z) : unknown_label n = unknown_label m -> n = m.
Proof.
  unfold unknown_label. intros H.
  by apply append_inj_r, append_inj_l, str_int_inj in H.
Qed.

Ltac table_entry E :=
  apply elem_of_list_to_map_2 in E;
  repeat (apply elem_of_cons in E as [[= -> ->]|E]);
  [..|by apply elem_of_nil in E].

(** In each table distinct opcodes have distinct names, no name looks like
    an [Unknown] label, and the labels of unlisted opcodes differ. *)
Lemma name_of_inj (L : layout) (op1 op2 : Z) :
  L ∈ layouts ->
  name_of (rules L) op1 = name_of (rules L) op2 -> op1 = op2.
Proof.
  intros HL. unfold layouts in HL.
  repeat (apply elem_of_cons in HL as [->|HL]); [..|by apply elem_of_nil in HL];
    cbn [rules]; unfold name_of, SYSTEM_INSTRUCTIONS, TOKEN_INSTRUCTIONS,
      TOKEN_2022_INSTRUCTIONS, RAYDIUM_AMM_INSTRUCTIONS,
      RAYDIUM_CPMM_INSTRUCTIONS, RAYDIUM_CLMM_INSTRUCTIONS.
  all: match goal with
       | |- default _ (?m !! ?a) = default _ (?m !! ?b) -> _ =>
           destruct (m !! a) as [n1|] eqn:E1;
           destruct (m !! b) as [n2|] eqn:E2; cbn [default];
           [ table_entry E1; table_entry E2; intros H;
             first [reflexivity | discriminate H]
           | table_entry E1; unfold unknown_label; simpl; discriminate
           | table_entry E2; unfold unknown_label; simpl; discriminate
           | apply unknown_label_inj ]
       end.
Qed.

(** X11. The ["type"] label identifies the opcode: if two buffers of the
    same registered program decode to results with the same label, their
    opcodes are equal, listed or not. *)
Theorem instruction_label_identifies_opcode (L : layout) (d1 d2 : bytes)
    (op1 op2 : Z) (r1 r2 : dict) :
  L ∈ layouts ->
  opcode_of L d1 = Some op1 ->
  opcode_of L d2 = Some op2 ->
  decode_instruction_data (program_id L) d1 = Return r1 ->
  decode_instruction_data (program_id L) d2 = Return r2 ->
  dict_get r1 "type" = dict_get r2 "type" ->
  op1 = op2.
Proof.
  intros HL Hop1 Hop2 Hr1 Hr2 Ht.
  destruct (decoded_type_entry L d1 op1 HL Hop1) as (r1' & Hr1' & Ht1).
  destruct (decoded_type_entry L d2 op2 HL Hop2) as (r2' & Hr2' & Ht2).
  rewrite Hr1 in Hr1'. injection Hr1' as <-.
  rewrite Hr2 in Hr2'. injection Hr2' as <-.
  rewrite Ht1, Ht2 in Ht. injection Ht as Hn.
  exact (name_of_inj L op1 op2 HL Hn).
Qed.

Lemma instruction_label_identifies_opcode_witness :
  decode_instruction_data TOKEN_PROGRAM_ID [x07; xff; xff]
  = Return (raw_result "MintTo" [x07; xff; xff])
  /\ 7 = 7.
Proof.
  split; [reflexivity|].
  apply (instruction_label_identifies_opcode token_layout
           [x07; x01] [x07; xff; xff] 7 7
           (raw_result "MintTo" [x07; x01])
           (raw_result "MintTo" [x07; xff; xff]));
    [in_layouts | reflexivity..].
Defined.

Lemma byte_val_inj (b1 b2 : byte) : byte_val b1 = byte_val b2 -> b1 = b2.
Proof.
  unfold byte_val. intros H%N2Z.inj.
  pose proof (Byte.of_to_N b1) as H1. rewrite H, Byte.of_to_N in H1.
  congruence.
Qed.

Lemma int_from_bytes_little_inj (bs1 bs2 : bytes) :
  length bs1 = length bs2 ->
  int_from_bytes_little bs1 = int_from_bytes_little bs2 -> bs1 = bs2.
Proof.
  revert bs2. induction bs1 as [|b1 bs1 IH]; intros [|b2 bs2] Hlen H;
    try discriminate; [reflexivity|].
  simpl in Hlen. cbn [int_from_bytes_little] in H.
  pose proof (byte_val_range b1). pose proof (byte_val_range b2).
  assert (byte_val b1 = byte_val b2) as Hb by lia.
  assert (int_from_bytes_little bs1 = int_from_bytes_little bs2) as Hr by lia.
  f_equal; [by apply byte_val_inj | apply IH; [lia | exact Hr]].
Qed.

Lemma take_extend (d1 d2 : bytes) (lo hi : nat) :
  (lo <= hi)%nat ->
  take lo d1 = take lo d2 -> slice d1 lo hi = slice d2 lo hi ->
  take hi d1 = take hi d2.
Proof.
  intros Hle Ht Hs.
  assert (forall d : bytes, take hi d = (take lo d ++ slice d lo hi)%list) as Hsplit.
  { intros d. unfold slice. rewrite take_take_drop. f_equal. lia. }
  by rewrite !Hsplit, Ht, Hs.
Qed.

Lemma take_1_byte (d1 d2 : bytes) (op : Z) :
  byte_at 0 d1 = Some op -> byte_at 0 d2 = Some op -> take 1 d1 = take 1 d2.
Proof.
  unfold byte_at. destruct d1 as [|b1 d1], d2 as [|b2 d2]; try discriminate.
  simpl. intros [= H1] [= H2]. f_equal. apply byte_val_inj. congruence.
Qed.

Lemma opcode_of_two_buffers (L : layout) (d1 d2 : bytes) (op : Z) :
  L ∈ layouts ->
  opcode_of L d1 = Some op ->
  (9 <= length d2)%nat ->
  decode_instruction_data (program_id L) d1
  = decode_instruction_data (program_id L) d2 ->
  opcode_of L d2 = Some op.
Proof.
  intros HL Hop1 Hlen Heq.
  assert (exists op2, opcode_of L d2 = Some op2) as [op2 Hop2].
  { unfold layouts in HL.
    repeat (apply elem_of_cons in HL as [->|HL]); [..|by apply elem_of_nil in HL];
      cbn [opcode_of]; unfold u32_le_at_0, byte_at.
    1: { replace (len d2 <? 4) with false
           by (symmetry; apply len_long; unfold len; lia). eauto. }
    all: match goal with
         | |- context [?d !! ?i] =>
             destruct (lookup_lt_is_Some_2 d i) as [b ->]; [lia|]; eauto
         end. }
  destruct (decoded_type_entry L d1 op HL Hop1) as (r1 & Hr1 & Ht1).
  destruct (decoded_type_entry L d2 op2 HL Hop2) as (r2 & Hr2 & Ht2).
  rewrite Hr1, Hr2 in Heq. injection Heq as <-.
  rewrite Ht1 in Ht2. injection Ht2 as Hn.
  by rewrite (name_of_inj L op op2 HL Hn).
Qed.

Ltac fields_equal :=
  repeat match goal with
         | H : int_from_bytes_little (slice ?a ?lo ?hi)
               = int_from_bytes_little (slice ?b ?lo ?hi) |- _ =>
             apply int_from_bytes_little_inj in H;
             [|rewrite !slice_length; lia]
         end.

Ltac rebuild :=
  repeat match goal with
         | H : slice ?a ?lo ?hi = slice ?b ?lo ?hi |- take ?hi ?a = take ?hi ?b =>
             apply (take_extend a b lo hi); [lia| |exact H]
         end.

(** X12. For every registered program but CPMM, nothing is lost on a
    buffer of exactly the length its instruction needs: two such buffers
    with the same result are the same buffer. *)
Theorem fields_determine_buffer (L : layout) (d1 d2 : bytes) (op : Z)
    (fs : list (string * nat)) :
  L ∈ layouts ->
  program_id L <> RAYDIUM_CPMM_PROGRAM_ID ->
  opcode_of L d1 = Some op ->
  integer_fields (program_id L) op = Some fs ->
  length d1 = extent fs ->
  length d2 = extent fs ->
  decode_instruction_data (program_id L) d1
  = decode_instruction_data (program_id L) d2 ->
  d1 = d2.
Proof.
  intros HL Hne Hop1 Hfs Hl1 Hl2 Heq.
  assert (9 <= extent fs)%nat as Hext.
  { clear -HL Hfs. split_layouts HL; revert Hfs; split_branches;
      try discriminate; intros [= <-]; unfold extent; simpl; lia. }
  pose proof (opcode_of_two_buffers L d1 d2 op HL Hop1 ltac:(lia) Heq) as Hop2.
  rewrite <- (take_ge d1 (extent fs)), <- (take_ge d2 (extent fs)) by lia.
  revert Heq Hl1 Hl2. clear Hext.
  pose proof Hop1 as Hb1. pose proof Hop2 as Hb2.
  split_layouts HL; try done; read_opcode Hop1; read_opcode Hop2;
    try subst op; try rewrite Hop2; revert Hfs; split_branches;
    try (exfalso; lia); try discriminate; intros [= <-];
    unfold extent; cbn [foldr snd Nat.add Nat.max];
    intros Heq Hl1 Hl2; injection Heq as Heq; repeat (injection Heq as ? Heq);
    fields_equal; rebuild.
  all: first [ reflexivity | by eapply take_1_byte ].
Qed.

Lemma fields_determine_buffer_witness :
  length (x03 :: replicate 8 x2a) = extent [("amount", 1%nat)]
  /\ (x03 :: replicate 8 x2a) = (x03 :: replicate 8 x2a).
Proof.
  split; [reflexivity|].
  apply (fields_determine_buffer token_layout
           (x03 :: replicate 8 x2a) (x03 :: replicate 8 x2a) 3
           [("amount", 1%nat)]);
    [in_layouts | discriminate | reflexivity..].
Defined.

(** X13. The system decoder reports [Transfer] exactly for buffers that
    begin with the four bytes [02 00 00 00]: all four bytes of the
    little-endian opcode count. *)
Theorem system_transfer_iff_opcode_bytes (data : bytes) :
  (exists d, decode_system_instruction data = Return d
             /\ dict_get d "type" = Some (VStr "Transfer"))
  <-> take 4 data = [x02; x00; x00; x00].
Proof.
  split.
  - intros (d & Hd & Ht). revert Hd Ht. unfold_decoders. split_branches.
    + intros [= <-]. discriminate.
    + intros _ _.
      apply (int_from_bytes_little_inj (slice data 0 4) [x02; x00; x00; x00]);
        [|exact e].
      rewrite slice_length. cbn [length]. unfold len in *. lia.
    + intros [= <-]. cbn [raw_result dict_get].
      change (String.eqb "type" "type") with true. cbv iota. intros [= Hn].
      exfalso. apply n.
      apply (name_of_inj system_layout); [in_layouts | exact Hn].
  - intros H4.
    assert (4 <= length data)%nat as Hlen.
    { apply (f_equal length) in H4. rewrite length_take in H4.
      cbn [length] in H4. lia. }
    assert (int_from_bytes_little (slice data 0 4) = 2) as Hop.
    { change (slice data 0 4) with (take 4 data). by rewrite H4. }
    eexists. split.
    + unfold_decoders.
      replace (len data <? 4) with false
        by (symmetry; apply len_long; unfold len; lia).
      cbv zeta. rewrite Hop. reflexivity.
    + reflexivity.
Qed.

(** ** Further properties of util.py *)

(** *** [create_discriminators] on any list *)

Section AnyList.
Variable key : string -> string.

Lemma run_loop_forward (names : list string) (k v : string) :
  func_disc (run_loop key names) !! k = Some v <-> k ∈ names /\ v = key k.
Proof.
  induction names as [|x names IH] using rev_ind.
  - unfold run_loop. cbn [foldl func_disc]. rewrite lookup_empty.
    split; [discriminate | intros [H _]; by apply elem_of_nil in H].
  - rewrite run_loop_snoc. unfold add_key. cbn [func_disc].
    rewrite elem_of_app, list_elem_of_singleton.
    destruct (decide (k = x)) as [->|Hne].
    + rewrite lookup_insert_eq. split.
      * intros [= <-]. split; [by right | reflexivity].
      * intros [_ ->]. reflexivity.
    + rewrite lookup_insert_ne by congruence. rewrite IH. split.
      * intros [Hin ->]. split; [by left | reflexivity].
      * intros [[Hin|Heq] ->]; [by split | contradiction].
Qed.

Lemma run_loop_inverse (names : list string) (d : string) :
  disc_func (run_loop key names) !! d = last (filter (fun n => key n = d) names).
Proof.
  induction names as [|x names IH] using rev_ind.
  - unfold run_loop. cbn [foldl disc_func]. by rewrite lookup_empty.
  - rewrite run_loop_snoc. unfold add_key. cbn [disc_func].
    rewrite filter_app, filter_cons, filter_nil.
    destruct (decide (key x = d)) as [<-|Hne].
    + by rewrite lookup_insert_eq, last_snoc.
    + rewrite lookup_insert_ne by congruence. by rewrite app_nil_r.
Qed.

Lemma run_loop_inverse_Some (names : list string) (d n : string) :
  disc_func (run_loop key names) !! d = Some n -> n ∈ names /\ key n = d.
Proof.
  rewrite run_loop_inverse. intros H%last_Some_elem_of.
  by apply list_elem_of_filter in H as [? ?].
Qed.

Lemma run_loop_inverse_is_Some (names : list string) (n : string) :
  n ∈ names -> is_Some (disc_func (run_loop key names) !! key n).
Proof.
  intros Hin. rewrite run_loop_inverse.
  destruct (filter (fun n0 => key n0 = key n) names) as [|y l] eqn:E.
  - assert (n ∈ filter (fun n0 => key n0 = key n) names) as H
      by (by apply list_elem_of_filter).
    rewrite E in H. by apply elem_of_nil in H.
  - rewrite last_cons. destruct (last l); eauto.
Qed.

Lemma run_loop_sizes (names : list string) :
  (size (disc_func (run_loop key names)) <= size (func_disc (run_loop key names))
   <= length names)%nat.
Proof.
  induction names as [|x names IH] using rev_ind.
  - unfold run_loop. cbn [foldl func_disc disc_func]. rewrite !map_size_empty.
    simpl. lia.
  - rewrite run_loop_snoc, length_app. unfold add_key.
    cbn [func_disc disc_func length]. rewrite !map_size_insert.
    destruct (func_disc (run_loop key names) !! x) as [v|] eqn:Ef.
    + apply run_loop_forward in Ef as [Hin _].
      destruct (run_loop_inverse_is_Some names x Hin) as [n ->].
      unfold id. lia.
    + destruct (disc_func (run_loop key names) !! key x); unfold id; lia.
Qed.

End AnyList.

Lemma disc_hex_format (scope n : string) :
  String.length (disc_hex scope n) = 16%nat
  /\ string_forallb is_lower_hex (disc_hex scope n) = true.
Proof.
  unfold disc_hex. split; [|apply bytes_hex_lower].
  by rewrite bytes_hex_length, discriminator_length.
Qed.

(** X14. For any list of names, repeated names and colliding
    discriminators included: [func_disc] holds exactly the names of the
    list, each with its own hex discriminator, and [disc_func] sends a
    discriminator to the last name of the list that has it (the last write
    wins). *)
Theorem create_discriminators_any_list (method_names : list string)
    (scope : string) :
  let result := create_discriminators method_names scope in
  (forall n v : string,
     func_disc result !! n = Some v
     <-> n ∈ method_names /\ v = disc_hex scope n)
  /\ (forall d : string,
        disc_func result !! d
        = last (filter (fun n => disc_hex scope n = d) method_names)).
Proof.
  intros result. subst result. rewrite create_discriminators_run_loop.
  split; [apply run_loop_forward | apply run_loop_inverse].
Qed.

(** X15. Every entry of [disc_func] mirrors an entry of [func_disc]: if
    [disc_func] sends [d] to [n], then [n] is one of the names, [d] is its
    discriminator, 16 lower-case hex digits, and [func_disc] sends [n]
    back to [d]. *)
Theorem inverse_entries_mirror_forward (method_names : list string)
    (scope d n : string) :
  disc_func (create_discriminators method_names scope) !! d = Some n ->
  n ∈ method_names
  /\ d = bytes_hex (get_instruction_discriminator n scope)
  /\ func_disc (create_discriminators method_names scope) !! n = Some d
  /\ String.length d = 16%nat
  /\ string_forallb is_lower_hex d = true.
Proof.
  rewrite create_discriminators_run_loop.
  intros [Hin <-]%run_loop_inverse_Some.
  split; [exact Hin|]. split; [reflexivity|]. split.
  - apply run_loop_forward. by split.
  - apply disc_hex_format.
Qed.

Lemma inverse_entries_mirror_forward_witness :
  func_disc (create_discriminators ["initialize"; "transfer"] "global")
    !! "transfer" = Some "a334c8e78c0345ba".
Proof.
  refine (proj1 (proj2 (proj2 (inverse_entries_mirror_forward
            ["initialize"; "transfer"] "global" "a334c8e78c0345ba" "transfer" _)))).
  vm_compute. reflexivity.
Defined.

(** X16. [disc_func] never has more entries than [func_disc], which never
    has more entries than the list has names. *)
Theorem discriminator_map_sizes (method_names : list string) (scope : string) :
  (size (disc_func (create_discriminators method_names scope))
   <= size (func_disc (create_discriminators method_names scope))
   <= length method_names)%nat.
Proof. rewrite create_discriminators_run_loop. apply run_loop_sizes. Qed.

(** *** [create_discriminators_json_locally] *)

Lemma split_space_cons (s : string) : exists w ws, split_space s = w :: ws.
Proof.
  destruct s as [|c s]; simpl; [eauto|].
  destruct (Ascii.eqb c " "); [eauto|]. destruct (split_space s); eauto.
Qed.

Lemma split_space_single (s : string) :
  (exists w, split_space s = [w]) <-> contains_space s = false.
Proof.
  induction s as [|c s IH]; simpl.
  - split; eauto.
  - destruct (Ascii.eqb c " "); simpl.
    + split; [|discriminate]. intros [w H].
      destruct (split_space_cons s) as (w' & ws & E). rewrite E in H. discriminate.
    + rewrite <- IH. destruct (split_space_cons s) as (w & ws & ->).
      destruct ws as [|w2 ws]; [split; eauto|].
      split; intros [? [=]].
Qed.

Lemma add_listed_raises (r : discriminators) (method : string) (e : exn) :
  add_listed r method = Raise e <-> contains_space method = false.
Proof.
  unfold add_listed, list_getitem. rewrite <- split_space_single.
  destruct (split_space_cons method) as (w & ws & ->). simpl.
  destruct ws as [|w2 ws]; simpl.
  - destruct e. split; eauto.
  - split; [discriminate | intros [? [=]]].
Qed.

Lemma add_listed_returns (r : discriminators) (method : string) :
  contains_space method = true ->
  add_listed r method
  = Return (Discriminators
              (<[first_word method := second_word method]> (func_disc r))
              (<[second_word method := first_word method]> (disc_func r))).
Proof.
  intros H. unfold add_listed, list_getitem, first_word, second_word.
  destruct (split_space method) as [|w [|w2 ws]] eqn:E; simpl.
  - destruct (split_space_cons method) as (? & ? & ?). congruence.
  - assert (contains_space method = false) by (apply split_space_single; eauto).
    congruence.
  - reflexivity.
Qed.

Lemma listed_raises (r : discriminators) (ms : list string) (e : exn) :
  listed_discriminators r ms = Raise e <-> Exists no_space ms.
Proof.
  revert r. induction ms as [|m ms IH]; intros r; cbn [listed_discriminators].
  - split; [discriminate | by intros ?%Exists_nil].
  - rewrite Exists_cons. destruct (contains_space m) eqn:Hm.
    + rewrite (add_listed_returns r m Hm). cbn [mbind outcome_bind].
      rewrite IH. split; [by right|].
      intros [H|H]; [unfold no_space in H; congruence | done].
    + destruct (add_listed r m) as [r'|e'] eqn:E.
      * assert (add_listed r m = Raise IndexError) as E'
          by (by apply add_listed_raises).
        congruence.
      * cbn [mbind outcome_bind]. destruct e, e'. split; [by left | done].
Qed.

Lemma programs_loop_raises (acc : gmap string discriminators)
    (items : list (string * program_info)) (e : exn) :
  programs_loop acc items = Raise e <-> Exists bad_item items.
Proof.
  revert acc. induction items as [|[name info] items IH]; intros acc;
    cbn [programs_loop].
  - split; [discriminate | by intros ?%Exists_nil].
  - rewrite Exists_cons.
    destruct (Z.eqb_spec (num_bytes info) 8) as [H8|H8].
    + cbn [mbind outcome_bind]. rewrite IH. split; [by right|].
      by intros [[? _]|?].
    + destruct (listed_discriminators (Discriminators ∅ ∅) (methods info))
        as [discs|e'] eqn:E; cbn [mbind outcome_bind].
      * rewrite IH. split; [by right|]. intros [[_ Hbad]|?]; [|done].
        cbn [snd] in Hbad.
        apply (listed_raises (Discriminators ∅ ∅) _ IndexError) in Hbad.
        congruence.
      * destruct e, e'. split; [|done]. intros _. left. split; [done|].
        by apply (listed_raises (Discriminators ∅ ∅) _ IndexError).
Qed.

(** X17. A listed method without a space makes the build fail: when some
    program whose [num_bytes] is not 8 lists such a method, the call does
    not return, so nothing is written; and an [IndexError] can only come
    from such a method. *)
Theorem json_builder_unsplit_method (prog_func : list (string * program_info)) :
  (create_discriminators_json_locally prog_func = Raise IndexError ->
   exists prog_name info method,
     (prog_name, info) ∈ prog_func /\ num_bytes info <> 8
     /\ method ∈ methods info /\ contains_space method = false)
  /\ (forall prog_name info method,
        (prog_name, info) ∈ prog_func ->
        num_bytes info <> 8 ->
        method ∈ methods info ->
        contains_space method = false ->
        forall result,
          create_discriminators_json_locally prog_func <> Return result).
Proof.
  unfold create_discriminators_json_locally. split.
  - intros Hraise. apply programs_loop_raises in Hraise.
    apply Exists_exists in Hraise as ([name info] & Hin & H8 & Hbad).
    cbn [snd] in *.
    apply Exists_exists in Hbad as (method & Hm & Hns).
    exists name, info, method. done.
  - intros name info method Hin H8 Hm Hns result Hres.
    assert (programs_loop ∅ prog_func = Raise IndexError) as Hraise.
    { apply programs_loop_raises. apply Exists_exists.
      exists (name, info). split; [done|]. split; [done|].
      apply Exists_exists. eauto. }
    congruence.
Qed.

Lemma json_builder_unsplit_method_witness :
  (exists prog_name info method,
     (prog_name, info) ∈ unsplit_prog_func /\ num_bytes info <> 8
     /\ method ∈ methods info /\ contains_space method = false)
  /\ (forall result,
        create_discriminators_json_locally unsplit_prog_func <> Return result).
Proof.
  split.
  - apply (proj1 (json_builder_unsplit_method unsplit_prog_func)).
    vm_compute. reflexivity.
  - apply (proj2 (json_builder_unsplit_method unsplit_prog_func)
             "amm" (ProgramInfo ["swap 09"; "deposit"] 1) "deposit").
    + unfold unsplit_prog_func. apply list_elem_of_further, list_elem_of_here.
    + discriminate.
    + cbn [methods]. apply list_elem_of_further, list_elem_of_here.
    + reflexivity.
Defined.

Lemma programs_loop_other (acc result : gmap string discriminators)
    (items : list (string * program_info)) (name : string) :
  programs_loop acc items = Return result ->
  name ∉ items.*1 -> result !! name = acc !! name.
Proof.
  revert acc. induction items as [|[n i] items IH]; intros acc;
    cbn [programs_loop].
  - by intros [= ->].
  - fold (entry_of i). destruct (entry_of i) as [discs|e]; [|discriminate].
    cbn [mbind outcome_bind]. intros Hres Hnot.
    rewrite fmap_cons, not_elem_of_cons in Hnot. destruct Hnot as [Hne Hnot].
    cbn [fst] in Hne.
    rewrite (IH _ Hres Hnot). by rewrite lookup_insert_ne.
Qed.

Lemma programs_loop_entry (acc result : gmap string discriminators)
    (items : list (string * program_info)) (name : string) (info : program_info) :
  programs_loop acc items = Return result ->
  NoDup items.*1 ->
  (name, info) ∈ items ->
  exists discs, result !! name = Some discs /\ entry_of info = Return discs.
Proof.
  revert acc. induction items as [|[n i] items IH]; intros acc;
    cbn [programs_loop].
  - intros _ _ H. by apply elem_of_nil in H.
  - fold (entry_of i). destruct (entry_of i) as [discs|e] eqn:E; [|discriminate].
    cbn [mbind outcome_bind]. intros Hres Hnd Hin.
    rewrite fmap_cons in Hnd. apply NoDup_cons in Hnd as [Hfresh Hnd].
    cbn [fst] in Hfresh.
    apply elem_of_cons in Hin as [[= -> ->]|Hin].
    + exists discs. split; [|exact E].
      rewrite (programs_loop_other _ _ _ _ Hres Hfresh).
      by rewrite lookup_insert_eq.
    + by apply (IH _ Hres Hnd Hin).
Qed.

Lemma programs_loop_dom (acc result : gmap string discriminators)
    (items : list (string * program_info)) (name : string) :
  programs_loop acc items = Return result ->
  is_Some (result !! name) <-> name ∈ items.*1 \/ is_Some (acc !! name).
Proof.
  revert acc. induction items as [|[n i] items IH]; intros acc;
    cbn [programs_loop].
  - intros [= ->]. rewrite fmap_nil. split; [by right|].
    intros [H|H]; [by apply elem_of_nil in H | done].
  - fold (entry_of i). destruct (entry_of i) as [discs|e]; [|discriminate].
    cbn [mbind outcome_bind]. intros Hres. rewrite (IH _ Hres).
    rewrite fmap_cons, elem_of_cons. cbn [fst].
    destruct (decide (name = n)) as [->|Hne].
    + rewrite lookup_insert_eq. split; [by left; left | by right].
    + rewrite lookup_insert_ne by congruence. tauto.
Qed.

(** X18. When the build returns (program names distinct, as in a loaded
    JSON object), the result has exactly the program names as keys; a
    program with [num_bytes] 8 gets [create_discriminators] of its methods
    under the scope ["global"], any other program the maps read off its
    method lines. *)
Theorem json_builder_result (prog_func : list (string * program_info))
    (result : gmap string discriminators) :
  create_discriminators_json_locally prog_func = Return result ->
  NoDup prog_func.*1 ->
  (forall prog_name, is_Some (result !! prog_name) <-> prog_name ∈ prog_func.*1)
  /\ (forall prog_name info,
        (prog_name, info) ∈ prog_func ->
        exists discs,
          result !! prog_name = Some discs
          /\ (num_bytes info = 8 ->
                discs = create_discriminators (methods info) "global")
          /\ (num_bytes info <> 8 ->
                listed_discriminators (Discriminators ∅ ∅) (methods info)
                = Return discs)).
Proof.
  unfold create_discriminators_json_locally. intros Hres Hnd. split.
  - intros name. rewrite (programs_loop_dom _ _ _ name Hres).
    rewrite lookup_empty. split; [intros [?|[? [=]]]; done | by left].
  - intros name info Hin.
    destruct (programs_loop_entry _ _ _ _ _ Hres Hnd Hin) as (discs & Hl & He).
    exists discs. split; [exact Hl|]. unfold entry_of in He.
    destruct (Z.eqb_spec (num_bytes info) 8) as [H8|H8].
    + split; [intros _; congruence | done].
    + split; [done | intros _; exact He].
Qed.

Lemma json_builder_result_witness :
  exists result discs,
    create_discriminators_json_locally sample_prog_func = Return result
    /\ result !! "cpmm" = Some discs
    /\ discs = create_discriminators ["initialize"] "global".
Proof.
  destruct (create_discriminators_json_locally sample_prog_func)
    as [result|e] eqn:E; [|vm_compute in E; discriminate E].
  assert (NoDup sample_prog_func.*1) as Hnd.
  { refine (bool_decide_unpack _ _). vm_compute. exact I. }
  destruct (proj2 (json_builder_result sample_prog_func result E Hnd)
              "cpmm" (ProgramInfo ["initialize"] 8)) as (discs & Hl & H8 & _).
  { unfold sample_prog_func. apply list_elem_of_further, list_elem_of_here. }
  exists result, discs. split; [reflexivity|]. split; [exact Hl|].
  apply H8. reflexivity.
Defined.

Lemma listed_snoc (r : discriminators) (ms : list string) (m : string) :
  listed_discriminators r (ms ++ [m])
  = (r' ← listed_discriminators r ms; add_listed r' m).
Proof.
  revert r. induction ms as [|m0 ms IH]; intros r; cbn [listed_discriminators app].
  - cbn [mbind outcome_bind]. destruct (add_listed r m); reflexivity.
  - destruct (add_listed r m0) as [r0|e]; cbn [mbind outcome_bind];
      [apply IH | reflexivity].
Qed.

(** X19. For a program with listed methods, when the inner loop returns:
    [func_disc] sends a first word to the second word of the last line that
    starts with it, and [disc_func] sends a second word to the first word
    of the last line that carries it; words after the second are ignored. *)
Theorem listed_methods_last_write_wins (method_list : list string)
    (discs : discriminators) :
  listed_discriminators (Discriminators ∅ ∅) method_list = Return discs ->
  (forall m : string,
     func_disc discs !! m
     = last (second_word <$> filter (fun s => first_word s = m) method_list))
  /\ (forall d : string,
        disc_func discs !! d
        = last (first_word <$> filter (fun s => second_word s = d) method_list)).
Proof.
  revert discs. induction method_list as [|x ms IH] using rev_ind; intros discs.
  - intros [= <-]. cbn [func_disc disc_func]. split; intros; by rewrite lookup_empty.
  - rewrite listed_snoc.
    destruct (listed_discriminators (Discriminators ∅ ∅) ms) as [r|e];
      [|discriminate].
    cbn [mbind outcome_bind]. destruct (IH r eq_refl) as [IHf IHd].
    destruct (contains_space x) eqn:Hx.
    + rewrite (add_listed_returns r x Hx). intros [= <-].
      cbn [func_disc disc_func]. split.
      * intros m. rewrite filter_app, filter_cons, filter_nil, fmap_app.
        destruct (decide (first_word x = m)) as [<-|Hne].
        -- by rewrite lookup_insert_eq, fmap_cons, fmap_nil, last_snoc.
        -- rewrite lookup_insert_ne by congruence.
           by rewrite fmap_nil, app_nil_r.
      * intros d. rewrite filter_app, filter_cons, filter_nil, fmap_app.
        destruct (decide (second_word x = d)) as [<-|Hne].
        -- by rewrite lookup_insert_eq, fmap_cons, fmap_nil, last_snoc.
        -- rewrite lookup_insert_ne by congruence.
           by rewrite fmap_nil, app_nil_r.
    + intros H. assert (add_listed r x = Raise IndexError) as E
        by (by apply add_listed_raises).
      congruence.
Qed.

Lemma listed_methods_last_write_wins_witness :
  exists discs,
    listed_discriminators (Discriminators ∅ ∅) ["swap 09"; "deposit 03"; "swap 0a x"]
    = Return discs
    /\ func_disc discs !! "swap" = Some "0a"
    /\ disc_func discs !! "09" = Some "swap".
Proof.
  destruct (listed_discriminators (Discriminators ∅ ∅)
              ["swap 09"; "deposit 03"; "swap 0a x"]) as [discs|e] eqn:E;
    [|vm_compute in E; discriminate E].
  exists discs. split; [reflexivity|].
  destruct (listed_methods_last_write_wins _ discs E) as [Hf Hd].
  split; [rewrite Hf | rewrite Hd]; reflexivity.
Defined.

(** ** The kinds of result *)

(** X20. Every returned dictionary is of exactly one of three kinds,
    fixed by the program identifier and the guard: the unknown-program
    result for an unregistered identifier, the error result, or a result
    that starts with a ["type"] entry and has neither ["error"] nor
    ["program"]. *)
Theorem result_kinds (program_id_str : string) (data : bytes) (d : dict) :
  decode_instruction_data program_id_str data = Return d ->
  ((program_id_str ∉ registered_programs)
   /\ d = unknown_program program_id_str data)
  \/ (program_id_str ∈ registered_programs /\ d = invalid_length)
  \/ (program_id_str ∈ registered_programs
      /\ exists name rest,
          d = ("type", VStr name) :: rest
          /\ dict_get d "error" = None
          /\ dict_get d "program" = None).
Proof.
  split_programs; unfold_decoders; split_branches; try discriminate.
  all: intros [= <-].
  all: first
         [ left; split; [|reflexivity];
           unfold registered_programs; rewrite !not_elem_of_cons;
           repeat split; try done; apply not_elem_of_nil
         | right; left; split;
           [unfold registered_programs; set_solver | reflexivity]
         | right; right; split;
           [unfold registered_programs; set_solver|];
           eexists; eexists; repeat split ].
Qed.

Lemma result_kinds_witness :
  (SYSTEM_PROGRAM_ID ∈ registered_programs)
  /\ (exists name rest,
        [("type", VStr "CreateAccount"); ("raw_data", VStr "0300000007")]
        = ("type", VStr name) :: rest).
Proof.
  destruct (result_kinds SYSTEM_PROGRAM_ID [x03; x00; x00; x00; x07]
              [("type", VStr "CreateAccount"); ("raw_data", VStr "0300000007")]
              eq_refl)
    as [[_ H]|[[_ H]|[Hin (name & rest & H & _)]]].
  - discriminate H.
  - discriminate H.
  - split; [exact Hin|]. exists name, rest. exact H.
Defined.

Lemma slice_1_9_split (data : bytes) (b8 : byte) :
  data !! 8%nat = Some b8 ->
  int_from_bytes_little (slice data 1 9)
  = int_from_bytes_little (slice data 1 8) + byte_val b8 * 256 ^ 7
  /\ 0 <= int_from_bytes_little (slice data 1 8) < 256 ^ 7.
Proof.
  intros H8. pose proof (lookup_lt_Some _ _ _ H8) as Hlen.
  assert (slice data 1 9 = (slice data 1 8 ++ [b8])%list) as Hsplit.
  { unfold slice. change (9 - 1)%nat with (S (8 - 1)).
    apply take_S_r. rewrite lookup_drop. exact H8. }
  pose proof (int_from_bytes_little_range (slice data 1 8)) as Hr.
  rewrite slice_length in Hr.
  replace ((8 - 1) `min` (length data - 1))%nat with 7%nat in Hr by lia.
  change (Z.of_nat 7) with 7 in Hr. split; [|exact Hr].
  rewrite Hsplit, int_from_bytes_little_app, slice_length.
  replace ((8 - 1) `min` (length data - 1))%nat with 7%nat by lia.
  cbn [int_from_bytes_little]. change (Z.of_nat 7) with 7. lia.
Qed.

(** X21. In every CPMM instruction with fields (opcodes 5 to 9) the first
    field starts at byte 1 and so ends on the opcode byte: its value is the
    little-endian value of bytes 1 to 7 plus the opcode times [256^7], and
    its most significant byte is the opcode. *)
Theorem cpmm_first_field_carries_opcode (data : bytes) (op : Z)
    (k : string) (off : nat) (fs : list (string * nat)) :
  byte_at 8 data = Some op ->
  integer_fields RAYDIUM_CPMM_PROGRAM_ID op = Some ((k, off) :: fs) ->
  exists (d : dict) (v : Z),
    decode_raydium_cpmm_instruction data = Return d
    /\ dict_get d k = Some (VInt v)
    /\ off = 1%nat
    /\ v = int_from_bytes_little (slice data 1 8) + op * 256 ^ 7
    /\ v / 256 ^ 7 = op.
Proof.
  intros Hop Hfs.
  assert (exists b8, data !! 8%nat = Some b8 /\ op = byte_val b8) as (b8 & H8 & Hb).
  { unfold byte_at in Hop. destruct (data !! 8%nat) as [b|]; [|discriminate].
    injection Hop as <-. eauto. }
  destruct (slice_1_9_split data b8 H8) as [Hval Hlow]. rewrite <- Hb in Hval.
  assert (int_from_bytes_little (slice data 1 9) / 256 ^ 7 = op) as Hmsb.
  { rewrite Hval, Z.div_add by lia. rewrite Z.div_small by lia. lia. }
  unfold integer_fields, is_token_program in Hfs.
  repeat match type of Hfs with
         | context [String.eqb ?a ?b] =>
             let r := eval vm_compute in (String.eqb a b) in
             change (String.eqb a b) with r in Hfs
         end.
  cbn [orb] in Hfs; cbv iota in Hfs.
  read_opcode Hop. revert Hfs. split_branches;
    try (exfalso; lia); try discriminate; intros [= <- <- <-];
    eexists; eexists; (split; [reflexivity|]);
    (split; [reflexivity|]); (split; [reflexivity|]);
    (split; [exact Hval | exact Hmsb]).
Qed.

Lemma cpmm_first_field_carries_opcode_witness :
  exists (d : dict) (v : Z),
    decode_raydium_cpmm_instruction
      ([x00; xe8; x03] ++ replicate 5 x00 ++ [x08] ++ replicate 8 x00)%list
    = Return d
    /\ dict_get d "amount_in" = Some (VInt v)
    /\ v = 1000 + 8 * 256 ^ 7.
Proof.
  destruct (cpmm_first_field_carries_opcode
              ([x00; xe8; x03] ++ replicate 5 x00 ++ [x08] ++ replicate 8 x00)%list
              8 "amount_in" 1%nat [("minimum_amount_out", 9%nat)])
    as (d & v & Hd & Hk & _ & Hv & _).
  - reflexivity.
  - reflexivity.
  - exists d, v. split; [exact Hd|]. split; [exact Hk|]. rewrite Hv. reflexivity.
Defined.
